(** * encode.py: assembling one ffmpeg invocation per file

    A shallow embedding of [encode_video] and its helpers from
    [src/encode.py], followed by the properties of the command it builds.

    Conventions of the embedding.
    - A Python [str] is a [string]; a character is a code point below 256.
      [isspace], [isdigit], [lower] and [int] are written out for that range
      the way CPython classifies it.
    - [input()] reads the next line of a finite list of answers and raises
      [EOFError] when the list is exhausted; [print] is not modelled.
    - The dictionary [cached_settings] that [main] shares between files is a
      field of the world, so what one call stores the next call reads.
    - ffprobe is run outside the model: [encode_video] takes what
      [get_track_info] returns for the file, the same for the audio and the
      subtitle listing.
    - [subprocess.run] of ffmpeg is an oracle from the argument list to the
      outcome of the process; every invocation is recorded in the world.
    - An exception is a value of [exn]; the handlers of [encode_video] are the
      last step of the model. *)

From Stdlib Require Import String Ascii List ZArith Lia Bool.
From Stdlib Require Import DecimalString.
From Stdlib Require DecimalPos.
Import ListNotations.

Local Open Scope list_scope.
Local Open Scope string_scope.

(** ** Python string primitives *)

Module Py.

(** [str.isspace] on one character: TAB..CR, FS..US, space, NEL, NBSP. *)
Definition is_space (c : ascii) : bool :=
  let n := nat_of_ascii c in
  ((9 <=? n) && (n <=? 13) || (28 <=? n) && (n <=? 32)
   || (n =? 133) || (n =? 160))%nat.

(** The decimal digits [0]..[9], the only characters [int] reads as digits. *)
Definition is_decimal (c : ascii) : bool :=
  let n := nat_of_ascii c in ((48 <=? n) && (n <=? 57))%nat.

(** [str.isdigit] on one character: the decimal digits and the superscripts
    one, two and three, which [int] rejects. *)
Definition is_digit_char (c : ascii) : bool :=
  let n := nat_of_ascii c in
  is_decimal c || ((n =? 178) || (n =? 179) || (n =? 185))%nat.

Fixpoint all_chars (p : ascii -> bool) (s : string) : bool :=
  match s with
  | EmptyString => true
  | String c s' => p c && all_chars p s'
  end.

(** Truth value of a string: non-empty. *)
Definition truthy (s : string) : bool :=
  match s with EmptyString => false | String _ _ => true end.

(** [s.isdigit()]: non-empty and every character a digit. *)
Definition isdigit (s : string) : bool :=
  truthy s && all_chars is_digit_char s.

Fixpoint lstrip (s : string) : string :=
  match s with
  | EmptyString => EmptyString
  | String c s' => if is_space c then lstrip s' else s
  end.

Fixpoint rstrip (s : string) : string :=
  match s with
  | EmptyString => EmptyString
  | String c s' =>
      let r := rstrip s' in
      if is_space c && negb (truthy r) then EmptyString else String c r
  end.

(** [s.strip()] *)
Definition strip (s : string) : string := rstrip (lstrip s).

(** [s or d] *)
Definition or_default (s d : string) : string :=
  if truthy s then s else d.

Definition lower_char (c : ascii) : ascii :=
  let n := nat_of_ascii c in
  if ((65 <=? n) && (n <=? 90)
      || (192 <=? n) && (n <=? 222) && negb (n =? 215))%nat
  then ascii_of_nat (n + 32) else c.

(** [s.lower()] *)
Fixpoint lower (s : string) : string :=
  match s with
  | EmptyString => EmptyString
  | String c s' => String (lower_char c) (lower s')
  end.

(** [s.split()]: the maximal runs of non-space characters, in order.  [cur]
    is the run being read. *)
Fixpoint split_from (cur : string) (s : string) : list string :=
  match s with
  | EmptyString => if truthy cur then [cur] else []
  | String c s' =>
      if is_space c
      then (if truthy cur then cur :: split_from EmptyString s'
            else split_from EmptyString s')
      else split_from (cur ++ String c EmptyString) s'
  end.

Definition split (s : string) : list string := split_from EmptyString s.

(** [''.join(parts)] *)
Definition join (parts : list string) : string := String.concat "" parts.

(** [needle in s] *)
Fixpoint contains (needle s : string) : bool :=
  String.prefix needle s ||
  match s with
  | EmptyString => false
  | String _ s' => contains needle s'
  end.

(** [s.replace(old, new)] for a non-empty [old]: scan from the left, replace
    each occurrence and resume after it.  [skip] counts the characters of the
    occurrence just replaced that are still to be passed over. *)
Fixpoint replace_from (old new : string) (skip : nat) (s : string) : string :=
  match s with
  | EmptyString => EmptyString
  | String c s' =>
      match skip with
      | S k => replace_from old new k s'
      | O =>
          if String.prefix old s
          then new ++ replace_from old new (String.length old - 1) s'
          else String c (replace_from old new 0 s')
      end
  end.

(** With an empty [old], [new] goes before every character and at the end. *)
Fixpoint interleave (new s : string) : string :=
  match s with
  | EmptyString => new
  | String c s' => new ++ String c (interleave new s')
  end.

Definition replace (old new s : string) : string :=
  match old with
  | EmptyString => interleave new s
  | String _ _ => replace_from old new 0 s
  end.

(** [str(n)] for an integer. *)
Definition str (n : Z) : string := NilZero.string_of_int (Z.to_int n).

(** The digits of an integer literal: decimal digits, single underscores
    allowed between two digits.  [acc] is the value read so far, [after_digit]
    tells whether the previous character was a digit. *)
Fixpoint digits_value (acc : Z) (after_digit : bool) (s : string) : option Z :=
  match s with
  | EmptyString => if after_digit then Some acc else None
  | String c s' =>
      if is_decimal c
      then digits_value (10 * acc + Z.of_nat (nat_of_ascii c - 48)) true s'
      else if Ascii.eqb c "_" && after_digit
           then digits_value acc false s'
           else None
  end.

(** [int(s)]: [None] stands for [ValueError]. *)
Definition int (s : string) : option Z :=
  match strip s with
  | String "+" r => digits_value 0 false r
  | String "-" r => option_map Z.opp (digits_value 0 false r)
  | t => digits_value 0 false t
  end.

End Py.

(** ** Data *)

(** What ffprobe reports for one stream, as far as the script reads it: the
    value of [codec_type] and the [tags] dictionary (empty when absent). *)
Record Stream := {
  codec_type : option string;
  tags : list (string * string)
}.

(** [d.get(key, default)] on a dictionary with string values. *)
Fixpoint dict_get (d : list (string * string)) (key default : string) : string :=
  match d with
  | [] => default
  | (k, v) :: d' => if String.eqb k key then v else dict_get d' key default
  end.

(** A track dictionary [{'id', 'title', 'language'}]. *)
Record Track := {
  id : Z;
  title : string;
  language : string
}.

(** A value of a preset parameter; [str_scalar] is [str(value)]. *)
Inductive scalar :=
| SInt (n : Z)
| SStr (s : string).

Definition str_scalar (v : scalar) : string :=
  match v with
  | SInt n => Py.str n
  | SStr s => s
  end.

(** A preset dictionary; [params] keeps insertion order. *)
Record Preset := {
  name : string;
  codec : string;
  params : list (string * scalar)
}.

Definition DEFAULT_PRESET : Preset := {|
  name := "Default x264";
  codec := "libx264";
  params := [("crf", SInt 24); ("preset", SStr "veryslow")]
|}.

Record Settings := {
  output_suffix : string;
  output_extension : string;
  presets : list Preset;
  preset_file : string;
  merged_audio_codec : string
}.

Definition ENCODE_SETTINGS : Settings := {|
  output_suffix := "_done";
  output_extension := ".mp4";
  presets := [DEFAULT_PRESET];
  preset_file := ".presets.json";
  merged_audio_codec := "aac"
|}.

(** A value that is [None] or a string: what the cache holds for the audio
    choice and the track list. *)
Inductive pyval :=
| PyNone
| PyStr (s : string).

(** [v == s] for a string literal [s]. *)
Definition pyval_eqb (v : pyval) (s : string) : bool :=
  match v with
  | PyNone => false
  | PyStr t => String.eqb t s
  end.

(** The dictionary [cached_settings] built by [main]. *)
Record CachedSettings := {
  use_cache : bool;
  audio_choice : pyval;
  audio_tracks : pyval;
  subtitle_track : option Z;
  should_reencode : bool;
  target_height : option Z;
  encoding_preset : option Preset
}.

(** The value [main] starts with. *)
Definition fresh_cache : CachedSettings := {|
  use_cache := false;
  audio_choice := PyNone;
  audio_tracks := PyNone;
  subtitle_track := None;
  should_reencode := false;
  target_height := None;
  encoding_preset := None
|}.

(** The dictionary [cmd_config]; [filter_complex] is [None] or a string. *)
Record CmdConfig := {
  input : string;
  output : string;
  video_settings : list string;
  audio_settings : list string;
  filter_complex : option string
}.

Definition set_video (v : list string) (c : CmdConfig) : CmdConfig :=
  {| input := input c; output := output c; video_settings := v;
     audio_settings := audio_settings c; filter_complex := filter_complex c |}.

Definition set_audio (a : list string) (c : CmdConfig) : CmdConfig :=
  {| input := input c; output := output c; video_settings := video_settings c;
     audio_settings := a; filter_complex := filter_complex c |}.

Definition set_filter (f : option string) (c : CmdConfig) : CmdConfig :=
  {| input := input c; output := output c; video_settings := video_settings c;
     audio_settings := audio_settings c; filter_complex := f |}.

(** ** Exceptions, the world and the monad of the script *)

Inductive exn :=
| EOFError
| ValueError
| TypeError
| AttributeError
| UnboundLocalError
| FileNotFoundError.

Inductive result (A : Type) :=
| Ok (a : A)
| Raise (e : exn).

Arguments Ok {A} a.
Arguments Raise {A} e.

(** How a run of ffmpeg ends: the executable is missing, or the process
    exits with a return code and a text on stderr. *)
Inductive proc_result :=
| NotFound
| Exited (returncode : Z) (stderr : string).

Record World := {
  stdin : list string;
  cached_settings : option CachedSettings;
  invoked : list (list string)
}.

Definition M (A : Type) : Type := World -> result A * World.

Definition ret {A} (a : A) : M A := fun w => (Ok a, w).

Definition raise {A} (e : exn) : M A := fun w => (Raise e, w).

Definition bind {A B} (m : M A) (k : A -> M B) : M B :=
  fun w =>
    match m w with
    | (Ok a, w') => k a w'
    | (Raise e, w') => (Raise e, w')
    end.

Notation "x <- m ;; k" := (bind m (fun x => k))
  (at level 61, m at next level, right associativity).
Notation "m ;;; k" := (bind m (fun _ => k))
  (at level 61, right associativity).

(** A pure step that may raise. *)
Definition lift {A} (r : result A) : M A := fun w => (r, w).

(** [input(...)]: the next answer, [EOFError] when there is none. *)
Definition read_input : M string :=
  fun w =>
    match stdin w with
    | [] => (Raise EOFError, w)
    | a :: rest =>
        (Ok a, {| stdin := rest; cached_settings := cached_settings w;
                  invoked := invoked w |})
    end.

(** [cached_settings and cached_settings['use_cache']]: the cache to replay,
    if there is one in use. *)
Definition active_cache : M (option CachedSettings) :=
  fun w =>
    match cached_settings w with
    | Some c => if use_cache c then (Ok (Some c), w) else (Ok None, w)
    | None => (Ok None, w)
    end.

(** [cached_settings[key] = value], written as an update [f] of the record;
    subscripting [None] is a [TypeError]. *)
Definition store (f : CachedSettings -> CachedSettings) : M unit :=
  fun w =>
    match cached_settings w with
    | Some c =>
        (Ok tt, {| stdin := stdin w; cached_settings := Some (f c);
                   invoked := invoked w |})
    | None => (Raise TypeError, w)
    end.

(** [if file_index == 0: cached_settings[key] = value] *)
Definition store_first (file_index : nat) (f : CachedSettings -> CachedSettings)
  : M unit :=
  match file_index with
  | O => store f
  | S _ => ret tt
  end.

Definition with_audio_choice (v : pyval) (c : CachedSettings) :=
  {| use_cache := use_cache c; audio_choice := v;
     audio_tracks := audio_tracks c; subtitle_track := subtitle_track c;
     should_reencode := should_reencode c; target_height := target_height c;
     encoding_preset := encoding_preset c |}.

Definition with_audio_tracks (v : pyval) (c : CachedSettings) :=
  {| use_cache := use_cache c; audio_choice := audio_choice c;
     audio_tracks := v; subtitle_track := subtitle_track c;
     should_reencode := should_reencode c; target_height := target_height c;
     encoding_preset := encoding_preset c |}.

Definition with_subtitle_track (v : option Z) (c : CachedSettings) :=
  {| use_cache := use_cache c; audio_choice := audio_choice c;
     audio_tracks := audio_tracks c; subtitle_track := v;
     should_reencode := should_reencode c; target_height := target_height c;
     encoding_preset := encoding_preset c |}.

Definition with_should_reencode (v : bool) (c : CachedSettings) :=
  {| use_cache := use_cache c; audio_choice := audio_choice c;
     audio_tracks := audio_tracks c; subtitle_track := subtitle_track c;
     should_reencode := v; target_height := target_height c;
     encoding_preset := encoding_preset c |}.

Definition with_target_height (v : option Z) (c : CachedSettings) :=
  {| use_cache := use_cache c; audio_choice := audio_choice c;
     audio_tracks := audio_tracks c; subtitle_track := subtitle_track c;
     should_reencode := should_reencode c; target_height := v;
     encoding_preset := encoding_preset c |}.

Definition with_encoding_preset (v : option Preset) (c : CachedSettings) :=
  {| use_cache := use_cache c; audio_choice := audio_choice c;
     audio_tracks := audio_tracks c; subtitle_track := subtitle_track c;
     should_reencode := should_reencode c; target_height := target_height c;
     encoding_preset := v |}.

(** ** Track lists *)

(** The loop of [get_audio_tracks] and [get_subtitle_tracks] over
    [info['streams']]: [found] is the list built so far, and a new track gets
    its length as id. *)
Fixpoint collect_tracks (kind : string) (streams : list Stream)
    (found : list Track) : list Track :=
  match streams with
  | [] => found
  | stream :: rest =>
      match codec_type stream with
      | Some k =>
          if String.eqb k kind
          then collect_tracks kind rest
                 (found ++
                  [{| id := Z.of_nat (List.length found);
                      title := dict_get (tags stream) "title"
                                 (dict_get (tags stream) "handler_name"
                                    "Untitled");
                      language := dict_get (tags stream) "language" "unknown"
                   |}])%list
          else collect_tracks kind rest found
      | None => collect_tracks kind rest found
      end
  end.

(** [info] is what [get_track_info] returns for the file: [None] when ffprobe
    failed or reported no streams entry. *)
Definition get_audio_tracks (info : option (list Stream)) : list Track :=
  match info with
  | None => []
  | Some streams => collect_tracks "audio" streams []
  end.

Definition get_subtitle_tracks (info : option (list Stream)) : list Track :=
  match info with
  | None => []
  | Some streams => collect_tracks "subtitle" streams []
  end.

(** ** The steps of [encode_video] that build the command *)

(** The filter graph when it is set and non-empty. *)
Definition current_filter (cfg : CmdConfig) : option string :=
  match filter_complex cfg with
  | Some f => if Py.truthy f then Some f else None
  | None => None
  end.

(** [''.join(filter_parts)] of the merge branch. *)
Definition merge_filter (track_ids : list string) : string :=
  Py.join
    (map (fun track_id => ("[0:a:" ++ track_id ++ "]")%string) track_ids
     ++ [("amerge=inputs=" ++ Py.str (Z.of_nat (List.length track_ids))
          ++ "[aout]")%string])%list.

(** Lines 222-256: the audio choice applied to [cmd_config].  [track_list] is
    [None] while the local variable is unbound. *)
Definition apply_audio (merged_codec : string) (choice : pyval)
    (track_list : option pyval) (cfg : CmdConfig) : result CmdConfig :=
  if pyval_eqb choice "1" then
    match track_list with
    | None => Raise UnboundLocalError
    | Some tl =>
        if pyval_eqb tl "" then
          Ok (set_audio ["-map"; "0:a"; "-c:a"; "copy"] cfg)
        else if pyval_eqb tl "-" then
          Ok (set_audio ["-an"] cfg)
        else
          match tl with
          | PyNone => Raise AttributeError
          | PyStr s =>
              Ok (set_audio
                    (flat_map
                       (fun track_id =>
                          ["-map"; "0:a:" ++ track_id; "-c:a"; "copy"])
                       (Py.split s))
                    cfg)
          end
    end
  else if pyval_eqb choice "2" then
    match track_list with
    | None => Raise UnboundLocalError
    | Some PyNone => Ok cfg
    | Some (PyStr s) =>
        if Py.truthy s then
          let merged := merge_filter (Py.split s) in
          let graph :=
            match current_filter cfg with
            | Some f => f ++ ";" ++ merged
            | None => merged
            end in
          Ok (set_audio ["-map"; "[aout]"; "-c:a"; merged_codec]
                (set_filter (Some graph) cfg))
        else Ok cfg
    end
  else Ok cfg.

(** Line 286: the input path as written inside the subtitles filter. *)
Definition escape_path (p : string) : string :=
  Py.replace ":" "\:" (Py.replace "\" "\\" p).

(** Lines 289 and 293: the burn-in fragment. *)
Definition subtitle_filter (sub_path : string) (sub_id : Z) : string :=
  "[0:v]subtitles='" ++ sub_path ++ "':si=" ++ Py.str sub_id ++ "[vout]".

(** Lines 280-284 and 295: the track the answer selects, with the parsed id.
    An answer [int] rejects selects nothing. *)
Definition select_subtitle (subtitle_tracks : list Track) (sub_choice : string)
  : option (Z * Track) :=
  if Py.truthy sub_choice then
    match Py.int sub_choice with
    | None => None
    | Some sub_id =>
        match find (fun track => Z.eqb (id track) sub_id) subtitle_tracks with
        | Some track => Some (sub_id, track)
        | None => None
        end
    end
  else None.

(** Lines 280-296: returns the configuration, [selected_subtitle] and
    [should_reencode]. *)
Definition apply_subtitle (subtitle_tracks : list Track) (sub_choice : string)
    (cfg : CmdConfig) : CmdConfig * option Track * bool :=
  match select_subtitle subtitle_tracks sub_choice with
  | Some (sub_id, track) =>
      let sub_path := escape_path (input cfg) in
      match current_filter cfg with
      | Some cur =>
          (set_video (["-map"; "[vout]"] ++ skipn 2 (video_settings cfg))%list
             (set_filter (Some (cur ++ ";" ++ subtitle_filter sub_path sub_id))
                cfg),
           Some track, true)
      | None =>
          (set_video (["-map"; "[vout]"] ++ skipn 2 (video_settings cfg))%list
             (set_filter (Some (subtitle_filter sub_path sub_id)) cfg),
           Some track, true)
      end
  | None => (cfg, None, false)
  end.

(** Lines 314-320: codec and parameters of the preset; subscripting a [None]
    preset is a [TypeError]. *)
Definition apply_preset (preset : option Preset) (cfg : CmdConfig)
  : result CmdConfig :=
  match preset with
  | None => Raise TypeError
  | Some p =>
      Ok (set_video
            (video_settings cfg ++ ["-c:v"; codec p]
             ++ flat_map
                  (fun kv => [("-" ++ fst kv)%string; str_scalar (snd kv)])
                  (params p))%list
            cfg)
  end.

(** Lines 330-348: the scale stage. *)
Definition apply_scale (res_choice : string) (cfg : CmdConfig)
  : result CmdConfig :=
  if Py.truthy res_choice && Py.isdigit res_choice then
    match Py.int res_choice with
    | None => Raise ValueError
    | Some height =>
        let scale_filter := "scale=-1:" ++ Py.str height in
        match current_filter cfg with
        | Some f =>
            if Py.contains "[aout]" f then
              Ok (set_video
                    (["-map"; "[vout]"] ++ skipn 2 (video_settings cfg))%list
                    (set_filter
                       (Some (f ++ ";" ++ ("[0:v]" ++ scale_filter ++ "[vout]")))
                       cfg))
            else
              Ok (set_filter
                    (Some (Py.replace "[vout]"
                             ("[vtmp];[vtmp]" ++ scale_filter ++ "[vout]") f))
                    cfg)
        | None =>
            Ok (set_video
                  (["-map"; "[vout]"] ++ skipn 2 (video_settings cfg))%list
                  (set_filter (Some ("[0:v]" ++ scale_filter ++ "[vout]")) cfg))
        end
    end
  else Ok cfg.

(** Lines 350-352. *)
Definition apply_copy (should_reencode : bool) (cfg : CmdConfig) : CmdConfig :=
  if negb should_reencode
  then set_video ["-map"; "0:v"; "-c:v"; "copy"] cfg
  else cfg.

(** Lines 354-362: the argument list of ffmpeg. *)
Definition build_cmd (cfg : CmdConfig) : list string :=
  (["ffmpeg"; "-i"; input cfg]
   ++ match current_filter cfg with
      | Some f => ["-filter_complex"; f]
      | None => []
      end
   ++ video_settings cfg ++ audio_settings cfg ++ [output cfg])%list.

(** ** The steps of [encode_video] that collect the decisions *)

(** [int(s) if s.isdigit() else None], the value stored for the subtitle
    track and for the target height. *)
Definition int_if_digit (s : string) : result (option Z) :=
  if Py.isdigit s then
    match Py.int s with
    | Some n => Ok (Some n)
    | None => Raise ValueError
    end
  else Ok None.

(** [str(v) if v is not None else ""] *)
Definition str_or_empty (v : option Z) : string :=
  match v with
  | Some n => Py.str n
  | None => ""
  end.

(** Lines 197-220: [choice] and [track_list]; the latter stays unbound after
    an answer other than 1 or 2, and reading it for the cache then raises. *)
Definition ask_audio (file_index : nat) : M (pyval * option pyval) :=
  cache <- active_cache ;;
  match cache with
  | Some c => ret (audio_choice c, Some (audio_tracks c))
  | None =>
      a <- read_input ;;
      let choice := Py.or_default (Py.strip a) "1" in
      store_first file_index (with_audio_choice (PyStr choice)) ;;;
      track_list <-
        (if String.eqb choice "1" then
           t <- read_input ;; ret (Some (PyStr (Py.strip t)))
         else if String.eqb choice "2" then
           t <- read_input ;; ret (Some (PyStr (Py.strip t)))
         else ret None) ;;
      match file_index with
      | O =>
          match track_list with
          | Some tl => store (with_audio_tracks tl)
          | None => raise UnboundLocalError
          end
      | S _ => ret tt
      end ;;;
      ret (PyStr choice, track_list)
  end.

(** Lines 268-278: [sub_choice]. *)
Definition ask_subtitle (file_index : nat) : M string :=
  cache <- active_cache ;;
  match cache with
  | Some c => ret (str_or_empty (subtitle_track c))
  | None =>
      a <- read_input ;;
      let sub_choice := Py.strip a in
      match file_index with
      | O => v <- lift (int_if_digit sub_choice) ;;
             store (with_subtitle_track v)
      | S _ => ret tt
      end ;;;
      ret sub_choice
  end.

(** Lines 300-306: the reencode answer, asked when no subtitle forced it. *)
Definition ask_reencode (file_index : nat) : M bool :=
  cache <- active_cache ;;
  match cache with
  | Some c => ret (should_reencode c)
  | None =>
      a <- read_input ;;
      let reencode := Py.lower (Py.strip a) in
      let should := String.eqb reencode "y" in
      store_first file_index (with_should_reencode should) ;;;
      ret should
  end.

(** Lines 323-328: [res_choice]. *)
Definition ask_resolution (file_index : nat) : M string :=
  cache <- active_cache ;;
  match cache with
  | Some c => ret (str_or_empty (target_height c))
  | None =>
      a <- read_input ;;
      let res_choice := Py.strip a in
      match file_index with
      | O => v <- lift (int_if_digit res_choice) ;;
             store (with_target_height v)
      | S _ => ret tt
      end ;;;
      ret res_choice
  end.

(** The [while True] loop of [get_encoding_preset]: answers are read until one
    is the index of a preset. *)
Fixpoint prompt_preset (all : list Preset) (answers : list string)
  : result Preset * list string :=
  match answers with
  | [] => (Raise EOFError, [])
  | a :: rest =>
      let choice := Py.or_default (Py.strip a) "0" in
      if Py.isdigit choice then
        match Py.int choice with
        | None => (Raise ValueError, rest)
        | Some n =>
            match (if (0 <=? n)%Z && (n <? Z.of_nat (List.length all))%Z
                   then nth_error all (Z.to_nat n) else None) with
            | Some preset => (Ok preset, rest)
            | None => prompt_preset all rest
            end
        end
      else prompt_preset all rest
  end.

Definition get_encoding_preset (all : list Preset) (file_index : nat)
  : M (option Preset) :=
  cache <- active_cache ;;
  match cache with
  | Some c => ret (encoding_preset c)
  | None =>
      match all with
      | [preset] =>
          store_first file_index (with_encoding_preset (Some preset)) ;;;
          ret (Some preset)
      | _ =>
          preset <-
            (fun w =>
               let (r, rest) := prompt_preset all (stdin w) in
               (r, {| stdin := rest; cached_settings := cached_settings w;
                      invoked := invoked w |})) ;;
          store_first file_index (with_encoding_preset (Some preset)) ;;;
          ret (Some preset)
      end
  end.

(** ** [encode_video] *)

(** What the script uses of [Path(input_file)]: its text, and the text of
    [path.parent / (path.stem + rest)] for a given [rest]. *)
Record InputPath := {
  path_str : string;
  beside : string -> string
}.

(** [subprocess.run(cmd, ...)] with its outcome tested as in lines 378-385. *)
Definition run_encoder (run_ffmpeg : list string -> proc_result)
    (cmd : list string) : M bool :=
  fun w =>
    let w' := {| stdin := stdin w; cached_settings := cached_settings w;
                 invoked := (invoked w ++ [cmd])%list |} in
    match run_ffmpeg cmd with
    | NotFound => (Raise FileNotFoundError, w')
    | Exited returncode _ => (Ok (returncode =? 0)%Z, w')
    end.

(** Lines 181-191. *)
Definition initial_config (settings : Settings) (input_path : InputPath)
  : CmdConfig :=
  {| input := path_str input_path;
     output := beside input_path
                 (output_suffix settings ++ output_extension settings);
     video_settings := ["-map"; "0:v"];
     audio_settings := [];
     filter_complex := None |}.

(** Lines 181-352: the body of the [try] up to the finished [cmd_config]. *)
Definition configure (settings : Settings) (input_path : InputPath)
    (info : option (list Stream)) (file_index : nat) : M CmdConfig :=
  let cfg0 := initial_config settings input_path in
  cfg1 <-
    (match get_audio_tracks info with
     | _ :: _ =>
         cl <- ask_audio file_index ;;
         lift (apply_audio (merged_audio_codec settings) (fst cl) (snd cl) cfg0)
     | [] => ret (set_audio ["-an"] cfg0)
     end) ;;
  let subtitle_tracks := get_subtitle_tracks info in
  sub <-
    (match subtitle_tracks with
     | _ :: _ =>
         sub_choice <- ask_subtitle file_index ;;
         ret (apply_subtitle subtitle_tracks sub_choice cfg1)
     | [] => ret (cfg1, None, false)
     end) ;;
  let cfg2 := fst (fst sub) in
  should_reencode <-
    (if snd sub then ret true else ask_reencode file_index) ;;
  cfg3 <-
    (if should_reencode then
       preset <- get_encoding_preset (presets settings) file_index ;;
       cfg <- lift (apply_preset preset cfg2) ;;
       res_choice <- ask_resolution file_index ;;
       lift (apply_scale res_choice cfg)
     else ret cfg2) ;;
  ret (apply_copy should_reencode cfg3).

(** The whole function: the result is the boolean it returns, and both
    handlers turn an exception into [False]. *)
Definition encode_video (settings : Settings)
    (run_ffmpeg : list string -> proc_result) (input_path : InputPath)
    (info : option (list Stream)) (file_index : nat) (w : World)
  : bool * World :=
  match (cfg <- configure settings input_path info file_index ;;
         run_encoder run_ffmpeg (build_cmd cfg)) w with
  | (Ok b, w') => (b, w')
  | (Raise _, w') => (false, w')
  end.

(** ** [main] *)

(** One command-line argument: the path, what ffprobe reports for it, and
    whether it passes the three checks of lines 418-429 (it exists, it is a
    file, [is_video_file] accepts it). *)
Record Arg := {
  arg_path : InputPath;
  arg_info : option (list Stream);
  arg_valid : bool
}.

Definition with_use_cache (v : bool) (c : CachedSettings) :=
  {| use_cache := v; audio_choice := audio_choice c;
     audio_tracks := audio_tracks c; subtitle_track := subtitle_track c;
     should_reencode := should_reencode c; target_height := target_height c;
     encoding_preset := encoding_preset c |}.

(** The loop of lines 415-443 from index [i] on; [count] is
    [len(sys.argv[1:])]. *)
Fixpoint process_files (settings : Settings)
    (run_ffmpeg : list string -> proc_result) (count i : nat)
    (args : list Arg) : M unit :=
  match args with
  | [] => ret tt
  | f :: rest =>
      (if arg_valid f then
         (fun w =>
            let r := encode_video settings run_ffmpeg (arg_path f)
                       (arg_info f) i w in
            (Ok tt, snd r)) ;;;
         match i with
         | O =>
             if (1 <? count)%nat then
               a <- read_input ;;
               let use_same := Py.lower (Py.strip a) in
               store (with_use_cache (String.eqb use_same "y"))
             else ret tt
         | S _ => ret tt
         end
       else ret tt) ;;;
      process_files settings run_ffmpeg count (S i) rest
  end.

(** Lines 394-446, with the presets already loaded into [settings]. *)
Definition main (settings : Settings)
    (run_ffmpeg : list string -> proc_result) (args : list Arg) : M unit :=
  match args with
  | [] => ret tt
  | _ :: _ =>
      (fun w =>
         (Ok tt, {| stdin := stdin w; cached_settings := Some fresh_cache;
                    invoked := invoked w |})) ;;;
      process_files settings run_ffmpeg (List.length args) 0 args ;;;
      _ <- read_input ;;
      ret tt
  end.

(** ** The command as a function of the decisions *)

(** The values the collecting steps hand to the building steps, named as the
    local variables of [encode_video].  [reencode] is the answer to the
    reencode question (or its cached value); [preset] and [res_choice] are
    read only when the video is reencoded. *)
Record Decision := {
  choice : pyval;
  track_list : option pyval;
  sub_choice : string;
  reencode : bool;
  preset : option Preset;
  res_choice : string
}.

(** The finished [cmd_config] with the final [should_reencode] and
    [selected_subtitle]. *)
Record Assembled := {
  config : CmdConfig;
  reencoded : bool;
  burned : option Track
}.

Definition and_then {A B} (r : result A) (k : A -> result B) : result B :=
  match r with
  | Ok a => k a
  | Raise e => Raise e
  end.

(** The audio stage of [encode_video] on the initial configuration. *)
Definition audio_stage (settings : Settings) (audio_tracks : list Track)
    (d : Decision) (cfg0 : CmdConfig) : result CmdConfig :=
  match audio_tracks with
  | _ :: _ =>
      apply_audio (merged_audio_codec settings) (choice d) (track_list d) cfg0
  | [] => Ok (set_audio ["-an"] cfg0)
  end.

(** The subtitle stage. *)
Definition subtitle_stage (subtitle_tracks : list Track) (d : Decision)
    (cfg1 : CmdConfig) : CmdConfig * option Track * bool :=
  match subtitle_tracks with
  | _ :: _ => apply_subtitle subtitle_tracks (sub_choice d) cfg1
  | [] => (cfg1, None, false)
  end.

(** Lines 262-352 with the decisions [d] in place of the questions:
    everything after the audio stage. *)
Definition video_stages (subtitle_tracks : list Track) (d : Decision)
    (cfg1 : CmdConfig) : result Assembled :=
  let sub := subtitle_stage subtitle_tracks d cfg1 in
  let cfg2 := fst (fst sub) in
  let should := if snd sub then true else reencode d in
  and_then
    (if should then
       and_then (apply_preset (preset d) cfg2)
         (fun cfg => apply_scale (res_choice d) cfg)
     else Ok cfg2)
    (fun cfg3 =>
       Ok {| config := apply_copy should cfg3;
             reencoded := should;
             burned := snd (fst sub) |}).

(** The building steps of [encode_video] in the order of the source. *)
Definition assemble (settings : Settings) (input_path : InputPath)
    (audio_tracks subtitle_tracks : list Track) (d : Decision)
  : result Assembled :=
  and_then (audio_stage settings audio_tracks d
              (initial_config settings input_path))
    (video_stages subtitle_tracks d).

(** [a] with other audio arguments. *)
Definition with_audio (args : list string) (a : Assembled) : Assembled :=
  {| config := set_audio args (config a);
     reencoded := reencoded a;
     burned := burned a |}.

(** ** Reading a filter graph *)

(** The fragments of a graph: the pieces between semicolons. *)
Fixpoint fragments_from (cur : string) (g : string) : list string :=
  match g with
  | EmptyString => [cur]
  | String c g' =>
      if Ascii.eqb c ";" then cur :: fragments_from EmptyString g'
      else fragments_from (cur ++ String c EmptyString) g'
  end.

Definition fragments (g : string) : list string :=
  fragments_from EmptyString g.

(** [ends_with label s]: [s.endswith(label)]. *)
Fixpoint ends_with (label s : string) : bool :=
  String.eqb label s ||
  match s with
  | EmptyString => false
  | String _ s' => ends_with label s'
  end.

(** The fragments of [g] that write the output [label]. *)
Definition producers (label g : string) : list string :=
  filter (ends_with label) (fragments g).

(** A step that runs no process: it leaves [invoked] as it found it. *)
Definition quiet {A} (m : M A) : Prop :=
  forall w, invoked (snd (m w)) = invoked w.

(** [avoids t x]: the character [t] does not occur in [x]. *)
Definition avoids (t : ascii) (x : string) : bool :=
  Py.all_chars (fun a => negb (Ascii.eqb a t)) x.

(** A character of the text of an integer: a decimal digit or the minus
    sign. *)
Definition plain (c : ascii) : bool :=
  Py.is_decimal c || Ascii.eqb c "-".

(** ** The escaping rule in the words of the specification *)

(** One character of the path as it is written inside the filter: a backslash
    becomes two backslashes, a colon becomes backslash-colon, any other
    character stays. *)
Definition escape_char (c : ascii) : string :=
  if Ascii.eqb c "\" then "\\"
  else if Ascii.eqb c ":" then "\:"
  else String c EmptyString.

Fixpoint escape_spec (p : string) : string :=
  match p with
  | EmptyString => EmptyString
  | String c p' => escape_char c ++ escape_spec p'
  end.

(** ** Sample files, answers and oracles *)

Module Sample.

Definition movie : InputPath :=
  {| path_str := "C:\v\a.mkv"; beside := fun rest => "C:\v\a" ++ rest |}.

(** A file whose name contains the text of the audio output label. *)
Definition labelled : InputPath :=
  {| path_str := "/v/[aout].mkv"; beside := fun rest => "/v/[aout]" ++ rest |}.

(** One video, two audio and one subtitle stream. *)
Definition probe : option (list Stream) :=
  Some [ {| codec_type := Some "video"; tags := [] |};
         {| codec_type := Some "audio"; tags := [("title", "Main")] |};
         {| codec_type := Some "audio"; tags := [("language", "eng")] |};
         {| codec_type := Some "subtitle";
            tags := [("handler_name", "Subs")] |} ].

Definition audio : list Track := get_audio_tracks probe.
Definition subs : list Track := get_subtitle_tracks probe.

(** ffmpeg found and successful. *)
Definition ffmpeg_ok (cmd : list string) : proc_result := Exited 0 "".

Definition world (answers : list string) : World :=
  {| stdin := answers; cached_settings := Some fresh_cache; invoked := [] |}.

Definition arg : Arg :=
  {| arg_path := movie; arg_info := probe; arg_valid := true |}.

Definition decide (c t s : string) (r : bool) (h : string) : Decision :=
  {| choice := PyStr c; track_list := Some (PyStr t); sub_choice := s;
     reencode := r; preset := Some DEFAULT_PRESET; res_choice := h |}.

End Sample.

(** ** Notions used to state further properties *)

(** [stream.get('codec_type') == kind] *)
Definition has_type (kind : string) (stream : Stream) : bool :=
  match codec_type stream with
  | Some k => String.eqb k kind
  | None => false
  end.

(** The track dictionary built for [stream] when it is the [i]-th stream of
    its type. *)
Definition track_of (i : nat) (stream : Stream) : Track :=
  {| id := Z.of_nat i;
     title := dict_get (tags stream) "title"
                (dict_get (tags stream) "handler_name" "Untitled");
     language := dict_get (tags stream) "language" "unknown" |}.

(** The world after [cached_settings['use_cache'] = True] (line 437 with the
    answer y). *)
Definition replayed (w : World) : World :=
  {| stdin := stdin w;
     cached_settings := option_map (with_use_cache true) (cached_settings w);
     invoked := invoked w |}.

(** The decisions [encode_video] reads from a cache in use (lines 198-199,
    269, 301, 151 and 324). *)
Definition cached_decision (c : CachedSettings) : Decision :=
  {| choice := audio_choice c;
     track_list := Some (audio_tracks c);
     sub_choice := str_or_empty (subtitle_track c);
     reencode := should_reencode c;
     preset := encoding_preset c;
     res_choice := str_or_empty (target_height c) |}.

(** A world whose cache is a dictionary that is not in use: the state in
    which [main] calls [encode_video] for the first file. *)
Definition collecting (w : World) : Prop :=
  exists c, cached_settings w = Some c /\ use_cache c = false.

(** An answer is plain when [int] accepts it only if [isdigit] does: no
    sign and no underscore. *)
Definition plain_answer (a : string) : Prop :=
  Py.isdigit (Py.strip a) = true \/ Py.int (Py.strip a) = None.

(** The video arguments start with -map and a stream specifier, and when
    that specifier is the label [vout] the graph is set and contains it. *)
Definition video_map_is_fed (cfg : CmdConfig) : Prop :=
  exists x rest,
    video_settings cfg = "-map" :: x :: rest
    /\ (x = "[vout]" ->
        exists f, filter_complex cfg = Some f
                  /\ Py.contains "[vout]" f = true).

(** A step that leaves the cache as it found it. *)
Definition keeps_cache {A} (m : M A) : Prop :=
  forall w, cached_settings (snd (m w)) = cached_settings w.

(** Further sample data. *)
Module Batch.

(** The one-character answer SUPERSCRIPT TWO (code point 178). *)
Definition superscript_two : string :=
  String (ascii_of_nat 178) EmptyString.

(** A cache in use that was filled by a first file with a single subtitle
    track, on which the answer 1 selected nothing and the video was copied:
    no preset was stored. *)
Definition copied_first : CachedSettings :=
  {| use_cache := true;
     audio_choice := PyStr "1";
     audio_tracks := PyStr "";
     subtitle_track := Some 1%Z;
     should_reencode := false;
     target_height := None;
     encoding_preset := None |}.

(** A later file with one audio and two subtitle streams. *)
Definition two_subtitles : option (list Stream) :=
  Some [ {| codec_type := Some "video"; tags := [] |};
         {| codec_type := Some "audio"; tags := [] |};
         {| codec_type := Some "subtitle"; tags := [("language", "eng")] |};
         {| codec_type := Some "subtitle"; tags := [("language", "fra")] |} ].

(** A file whose name contains the text of the video output label. *)
Definition vout_named : InputPath :=
  {| path_str := "/v/[vout].mkv"; beside := fun rest => "/v/[vout]" ++ rest |}.

(** A first file: audio dropped, no subtitle, reencoded to height 720 (typed
    0720); one more line is left on the input. *)
Definition first_world : World :=
  Sample.world ["1"; "-"; ""; "y"; "0720"; "next"].

Definition first_config : CmdConfig :=
  {| input := "C:\v\a.mkv";
     output := "C:\v\a_done.mp4";
     video_settings :=
       ["-map"; "[vout]"; "-c:v"; "libx264"; "-crf"; "24"; "-preset";
        "veryslow"];
     audio_settings := ["-an"];
     filter_complex := Some "[0:v]scale=-1:720[vout]" |}.

Definition after_first : World :=
  {| stdin := ["next"];
     cached_settings :=
       Some {| use_cache := false;
               audio_choice := PyStr "1";
               audio_tracks := PyStr "-";
               subtitle_track := None;
               should_reencode := true;
               target_height := Some 720%Z;
               encoding_preset := Some DEFAULT_PRESET |};
     invoked := [] |}.

Definition extra_preset : Preset :=
  {| name := "x265"; codec := "libx265"; params := [("crf", SInt 28)] |}.

End Batch.

(** * Properties *)

(** ** Strings *)

Lemma append_nil_r (s : string) : s ++ "" = s.
Proof. induction s as [|c s IH]; simpl; [reflexivity | now rewrite IH]. Qed.

Lemma append_assoc (a b c : string) : (a ++ b) ++ c = a ++ (b ++ c).
Proof. induction a as [|x a IH]; simpl; [reflexivity | now rewrite IH]. Qed.

Lemma prefix_length (x s : string) :
  String.prefix x s = true -> String.length x <= String.length s.
Proof.
  revert s; induction x as [|a x IH]; intros s H; simpl; [lia|].
  destruct s as [|b s]; simpl in H; [discriminate|].
  destruct (ascii_dec a b); [|discriminate].
  apply IH in H; simpl; lia.
Qed.

Lemma prefix_app_self (x b : string) : String.prefix x (x ++ b) = true.
Proof.
  induction x as [|a x IH]; simpl; [now destruct b|].
  destruct (ascii_dec a a); [exact IH | congruence].
Qed.

(** An occurrence of [x] cannot run across a character that [x] avoids. *)
Lemma prefix_boundary (x p : string) (t : ascii) (rest : string) :
  avoids t x = true ->
  String.prefix x (p ++ String t rest) = String.prefix x p.
Proof.
  revert p; induction x as [|a x IH]; intros p Hx.
  - now destruct p.
  - unfold avoids in Hx; simpl in Hx.
    apply andb_true_iff in Hx as [Ha Hx].
    destruct p as [|b p]; simpl.
    + destruct (ascii_dec a t) as [->|]; [|reflexivity].
      now rewrite Ascii.eqb_refl in Ha.
    + destruct (ascii_dec a b); [|reflexivity].
      now apply IH.
Qed.

(** A string that starts with a character other than the first of [x] does
    not start with [x]. *)
Lemma prefix_head (a c : ascii) (x s : string) :
  Ascii.eqb c a = false -> String.prefix (String a x) (String c s) = false.
Proof.
  intros H; simpl. destruct (ascii_dec a c) as [->|]; [|reflexivity].
  now rewrite Ascii.eqb_refl in H.
Qed.

Lemma contains_unfold (x s : string) :
  Py.contains x s =
  String.prefix x s
  || match s with
     | EmptyString => false
     | String _ s' => Py.contains x s'
     end.
Proof. now destruct s. Qed.

Lemma contains_here (x b : string) : Py.contains x (x ++ b) = true.
Proof. now rewrite contains_unfold, prefix_app_self. Qed.

Lemma contains_app_r (x a b : string) :
  Py.contains x b = true -> Py.contains x (a ++ b) = true.
Proof.
  intros H; induction a as [|c a IH]; simpl; [exact H|].
  rewrite IH; apply orb_true_r.
Qed.

Lemma contains_mid (x a b : string) : Py.contains x (a ++ x ++ b) = true.
Proof. apply contains_app_r, contains_here. Qed.

Lemma contains_empty (x : string) :
  Py.truthy x = true -> Py.contains x "" = false.
Proof. now destruct x. Qed.

(** Scanning [p ++ String t rest] for [x], which avoids [t]: no occurrence
    that starts in [p] reaches [t], so the scan of the whole is the scan of
    [p] followed by the scan of the rest. *)
Lemma contains_boundary (x p : string) (t : ascii) (rest : string) :
  avoids t x = true ->
  Py.contains x (p ++ String t rest)
  = Py.contains x p || Py.contains x (String t rest).
Proof.
  intros Hx; induction p as [|c p IH].
  - rewrite (contains_unfold x ""), orb_false_r.
    change ("" ++ String t rest) with (String t rest).
    rewrite (contains_unfold x (String t rest)).
    rewrite <- (prefix_boundary x "" t rest Hx).
    change ("" ++ String t rest) with (String t rest).
    now rewrite orb_assoc, orb_diag.
  - rewrite (contains_unfold x (String c p ++ _)), (contains_unfold x (String c p)).
    rewrite prefix_boundary by exact Hx.
    change (String c p ++ String t rest) with (String c (p ++ String t rest)).
    cbv iota. rewrite IH. now rewrite !orb_assoc.
Qed.

Lemma replace_from_boundary (old new p : string) (t : ascii) (rest : string) :
  avoids t old = true ->
  forall skip, skip <= String.length p ->
  Py.replace_from old new skip (p ++ String t rest)
  = Py.replace_from old new skip p
    ++ Py.replace_from old new 0 (String t rest).
Proof.
  intros Hx; induction p as [|c p IH]; intros skip Hs.
  - simpl in Hs. assert (skip = 0) as -> by lia. reflexivity.
  - change (String c p ++ String t rest) with (String c (p ++ String t rest)).
    destruct skip as [|k].
    + cbn [Py.replace_from].
      change (String c (p ++ String t rest)) with (String c p ++ String t rest).
      rewrite prefix_boundary by exact Hx.
      destruct (String.prefix old (String c p)) eqn:E.
      * apply prefix_length in E. simpl in E.
        rewrite IH by lia. now rewrite append_assoc.
      * rewrite IH by lia. reflexivity.
    + cbn [Py.replace_from]. simpl in Hs. apply IH; lia.
Qed.

(** A stretch of characters none of which is the first of [old] is copied. *)
Lemma replace_from_copy (a : ascii) (old new s rest : string) :
  avoids a s = true ->
  Py.replace_from (String a old) new 0 (s ++ rest)
  = s ++ Py.replace_from (String a old) new 0 rest.
Proof.
  induction s as [|c s IH]; intros H; [reflexivity|].
  unfold avoids in H; simpl in H. apply andb_true_iff in H as [Hc Hs].
  apply negb_true_iff in Hc.
  change (String c s ++ rest) with (String c (s ++ rest)).
  cbn [Py.replace_from]. rewrite (prefix_head a c old _ Hc).
  now rewrite (IH Hs).
Qed.

Lemma contains_copy (a : ascii) (x s rest : string) :
  avoids a s = true ->
  Py.contains (String a x) (s ++ rest) = Py.contains (String a x) rest.
Proof.
  induction s as [|c s IH]; intros H; [reflexivity|].
  unfold avoids in H; simpl in H. apply andb_true_iff in H as [Hc Hs].
  apply negb_true_iff in Hc.
  change (String c s ++ rest) with (String c (s ++ rest)).
  rewrite contains_unfold, (prefix_head a c x _ Hc). now rewrite (IH Hs).
Qed.

Lemma replace_from_absent (old new s : string) :
  Py.contains old s = false -> Py.replace_from old new 0 s = s.
Proof.
  induction s as [|c s IH]; intros H; [reflexivity|].
  rewrite contains_unfold in H. apply orb_false_iff in H as [H1 H2].
  cbn [Py.replace_from]. rewrite H1, (IH H2). reflexivity.
Qed.

Lemma string_of_uint_plain (d : Decimal.uint) :
  Py.all_chars plain (NilEmpty.string_of_uint d) = true.
Proof. induction d; simpl; auto. Qed.

Lemma nilzero_uint_plain (d : Decimal.uint) :
  Py.all_chars plain (NilZero.string_of_uint d) = true.
Proof.
  destruct d; [reflexivity | ..];
    match goal with
    | |- Py.all_chars plain (NilZero.string_of_uint ?u) = true =>
        exact (string_of_uint_plain u)
    end.
Qed.

Lemma str_plain (n : Z) : Py.all_chars plain (Py.str n) = true.
Proof.
  unfold Py.str, NilZero.string_of_int.
  destruct (Z.to_int n) as [d|d]; [apply nilzero_uint_plain|].
  cbn [Py.all_chars]. now rewrite nilzero_uint_plain.
Qed.

Lemma all_chars_impl (p q : ascii -> bool) (s : string) :
  (forall c, p c = true -> q c = true) ->
  Py.all_chars p s = true -> Py.all_chars q s = true.
Proof.
  intros Hpq; induction s as [|c s IH]; simpl; [reflexivity|].
  intros H. apply andb_true_iff in H as [Hc Hs].
  now rewrite (Hpq c Hc), (IH Hs).
Qed.

Lemma plain_not_bracket (c : ascii) :
  plain c = true -> negb (Ascii.eqb c "[") = true.
Proof.
  destruct (Ascii.eqb_spec c "[") as [->|]; [discriminate | reflexivity].
Qed.

Lemma str_avoids_bracket (n : Z) : avoids "[" (Py.str n) = true.
Proof.
  apply (all_chars_impl plain); [apply plain_not_bracket | apply str_plain].
Qed.

(** ** Escaping *)

Lemma prefix_single (a c : ascii) (s : string) :
  String.prefix (String a "") (String c s) = Ascii.eqb c a.
Proof.
  simpl. destruct (ascii_dec a c) as [->|N].
  - rewrite Ascii.eqb_refl. now destruct s.
  - symmetry. apply Ascii.eqb_neq. congruence.
Qed.

Lemma replace_single_step (a c : ascii) (new s : string) :
  Py.replace_from (String a "") new 0 (String c s)
  = (if Ascii.eqb c a then new else String c "")
    ++ Py.replace_from (String a "") new 0 s.
Proof.
  cbn [Py.replace_from]. rewrite prefix_single.
  now destruct (Ascii.eqb c a).
Qed.

Lemma replace_single_app (a : ascii) (new s r : string) :
  Py.replace_from (String a "") new 0 (s ++ r)
  = Py.replace_from (String a "") new 0 s
    ++ Py.replace_from (String a "") new 0 r.
Proof.
  induction s as [|c s IH]; [reflexivity|].
  change (String c s ++ r) with (String c (s ++ r)).
  now rewrite !replace_single_step, IH, append_assoc.
Qed.

Lemma escape_path_cons (c : ascii) (p : string) :
  escape_path (String c p) = escape_char c ++ escape_path p.
Proof.
  unfold escape_path, Py.replace.
  rewrite replace_single_step, replace_single_app. f_equal.
  unfold escape_char.
  destruct (Ascii.eqb_spec c "\") as [->|N1]; [reflexivity|].
  destruct (Ascii.eqb_spec c ":") as [->|N2]; [reflexivity|].
  rewrite replace_single_step.
  apply Ascii.eqb_neq in N2. now rewrite N2.
Qed.

Lemma escape_path_spec (p : string) : escape_path p = escape_spec p.
Proof.
  induction p as [|c p IH]; [reflexivity|].
  now rewrite escape_path_cons, IH.
Qed.

(** A text free of backslashes and colons occurs in the escaped path exactly
    when it occurs in the path. *)
Lemma prefix_escape (x p : string) :
  avoids "\" x = true -> avoids ":" x = true ->
  String.prefix x (escape_spec p) = String.prefix x p.
Proof.
  revert p; induction x as [|a x IH]; intros p H1 H2.
  - now destruct p; [|simpl; destruct (escape_char _ ++ _)].
  - unfold avoids in H1, H2; simpl in H1, H2.
    apply andb_true_iff in H1 as [A1 X1]. apply andb_true_iff in H2 as [A2 X2].
    apply negb_true_iff in A1, A2.
    destruct p as [|c p]; [reflexivity|].
    cbn [escape_spec]. unfold escape_char.
    destruct (Ascii.eqb_spec c "\") as [->|N1].
    { simpl. destruct (ascii_dec a "\") as [->|]; [discriminate | reflexivity]. }
    destruct (Ascii.eqb_spec c ":") as [->|N2].
    { simpl. destruct (ascii_dec a "\") as [->|]; [discriminate|].
      destruct (ascii_dec a ":") as [->|]; [discriminate | reflexivity]. }
    simpl. destruct (ascii_dec a c); [|reflexivity].
    now apply IH.
Qed.

Lemma contains_escape (x p : string) :
  Py.truthy x = true -> avoids "\" x = true -> avoids ":" x = true ->
  Py.contains x (escape_path p) = Py.contains x p.
Proof.
  intros T H1 H2. rewrite escape_path_spec.
  induction p as [|c p IH]; [reflexivity|].
  rewrite (contains_unfold x (String c p)), <- IH.
  rewrite <- (prefix_escape x (String c p) H1 H2).
  rewrite (contains_unfold x (escape_spec (String c p))).
  f_equal. cbn [escape_spec]. unfold escape_char.
  destruct x as [|a x]; [discriminate|].
  unfold avoids in H1, H2; simpl in H1, H2.
  apply andb_true_iff in H1 as [A1 _]. apply andb_true_iff in H2 as [A2 _].
  apply negb_true_iff in A1, A2.
  destruct (Ascii.eqb c "\"); [|destruct (Ascii.eqb c ":")].
  - cbn [append]. rewrite contains_unfold.
    rewrite prefix_head by (rewrite Ascii.eqb_sym; exact A1). reflexivity.
  - cbn [append]. rewrite contains_unfold.
    rewrite prefix_head by (rewrite Ascii.eqb_sym; exact A2). reflexivity.
  - reflexivity.
Qed.

(** ** Joining the parts of the merge fragment *)

Lemma join_cons (x : string) (l : list string) :
  Py.join (x :: l) = x ++ Py.join l.
Proof.
  unfold Py.join. destruct l; simpl; [now rewrite append_nil_r | reflexivity].
Qed.

Lemma join_app (l r : list string) :
  Py.join (l ++ r)%list = Py.join l ++ Py.join r.
Proof.
  induction l as [|x l IH]; [reflexivity|].
  change ((x :: l) ++ r)%list with (x :: (l ++ r)%list).
  now rewrite !join_cons, IH, append_assoc.
Qed.

Lemma merge_filter_ends (ids : list string) :
  exists front, merge_filter ids = front ++ "[aout]".
Proof.
  unfold merge_filter. rewrite join_app, join_cons.
  exists (Py.join (map (fun t => "[0:a:" ++ t ++ "]") ids)
          ++ "amerge=inputs=" ++ Py.str (Z.of_nat (List.length ids))).
  change (Py.join []) with "".
  now rewrite append_nil_r, !append_assoc.
Qed.

Lemma merge_filter_contains (ids : list string) (rest : string) :
  Py.contains "[aout]" (merge_filter ids ++ rest) = true.
Proof.
  destruct (merge_filter_ends ids) as [front ->].
  rewrite append_assoc. apply contains_mid.
Qed.

Lemma contains_truthy (x s : string) :
  Py.truthy x = true -> Py.contains x s = true -> Py.truthy s = true.
Proof.
  intros T H. destruct s; [|reflexivity].
  now rewrite contains_empty in H.
Qed.

Lemma merge_filter_truthy (ids : list string) :
  Py.truthy (merge_filter ids) = true.
Proof.
  apply (contains_truthy "[aout]"); [reflexivity|].
  rewrite <- (append_nil_r (merge_filter ids)). apply merge_filter_contains.
Qed.

(** ** What each stage leaves alone *)

Lemma apply_audio_frame (codec : string) (c : pyval) (t : option pyval)
    (cfg cfg1 : CmdConfig) :
  apply_audio codec c t cfg = Ok cfg1 ->
  input cfg1 = input cfg /\ output cfg1 = output cfg
  /\ video_settings cfg1 = video_settings cfg.
Proof.
  unfold apply_audio. intros H.
  repeat match type of H with
         | (if ?b then _ else _) = _ => destruct b
         | match ?x with _ => _ end = _ => destruct x
         end; inversion H; subst; auto.
Qed.

Lemma audio_stage_frame (s : Settings) (au : list Track) (d : Decision)
    (cfg cfg1 : CmdConfig) :
  audio_stage s au d cfg = Ok cfg1 ->
  input cfg1 = input cfg /\ output cfg1 = output cfg
  /\ video_settings cfg1 = video_settings cfg.
Proof.
  unfold audio_stage. destruct au.
  - intros H; inversion H; subst; auto.
  - apply apply_audio_frame.
Qed.

(** After the audio stage the graph is absent or is the merge fragment. *)
Lemma audio_stage_filter (s : Settings) (au : list Track) (d : Decision)
    (cfg cfg1 : CmdConfig) :
  filter_complex cfg = None ->
  audio_stage s au d cfg = Ok cfg1 ->
  filter_complex cfg1 = None
  \/ exists ids, filter_complex cfg1 = Some (merge_filter ids).
Proof.
  intros N. unfold audio_stage, apply_audio, current_filter. rewrite N.
  intros H.
  repeat match type of H with
         | (if ?b then _ else _) = _ => destruct b
         | match ?x with _ => _ end = _ => destruct x
         end; inversion H; subst; simpl; eauto.
Qed.

Lemma apply_subtitle_audio (subs : list Track) (c : string) (cfg : CmdConfig) :
  audio_settings (fst (fst (apply_subtitle subs c cfg))) = audio_settings cfg.
Proof.
  unfold apply_subtitle.
  destruct (select_subtitle subs c) as [[k t]|]; [|reflexivity].
  now destruct (current_filter cfg).
Qed.

Lemma apply_preset_audio (p : option Preset) (cfg cfg' : CmdConfig) :
  apply_preset p cfg = Ok cfg' -> audio_settings cfg' = audio_settings cfg.
Proof. destruct p; intros H; inversion H; reflexivity. Qed.

Lemma apply_scale_audio (r : string) (cfg cfg' : CmdConfig) :
  apply_scale r cfg = Ok cfg' -> audio_settings cfg' = audio_settings cfg.
Proof.
  unfold apply_scale. intros H.
  repeat match type of H with
         | (if ?b then _ else _) = _ => destruct b
         | match ?x with _ => _ end = _ => destruct x
         end; inversion H; reflexivity.
Qed.

Lemma apply_copy_audio (b : bool) (cfg : CmdConfig) :
  audio_settings (apply_copy b cfg) = audio_settings cfg.
Proof. now destruct b. Qed.

Lemma subtitle_stage_audio (subs : list Track) (d : Decision)
    (cfg : CmdConfig) :
  audio_settings (fst (fst (subtitle_stage subs d cfg))) = audio_settings cfg.
Proof.
  unfold subtitle_stage. destruct subs; [reflexivity|].
  apply apply_subtitle_audio.
Qed.

(** The stages after the audio stage never touch the audio arguments. *)
Lemma video_stages_audio (subs : list Track) (d : Decision)
    (cfg1 : CmdConfig) (a : Assembled) :
  video_stages subs d cfg1 = Ok a ->
  audio_settings (config a) = audio_settings cfg1.
Proof.
  unfold video_stages. intros H.
  rewrite <- (subtitle_stage_audio subs d cfg1).
  destruct (if snd (subtitle_stage subs d cfg1) then true else reencode d).
  - destruct (apply_preset _ _) as [cfg|] eqn:P; [|discriminate].
    simpl in H. destruct (apply_scale _ _) as [cfg3|] eqn:S; [|discriminate].
    inversion H; subst; cbn [config]. rewrite apply_copy_audio.
    now rewrite (apply_scale_audio _ _ _ S), (apply_preset_audio _ _ _ P).
  - inversion H; subst; cbn [config]. now rewrite apply_copy_audio.
Qed.

Lemma apply_subtitle_with_audio (subs : list Track) (c : string)
    (args : list string) (cfg : CmdConfig) :
  apply_subtitle subs c (set_audio args cfg)
  = (set_audio args (fst (fst (apply_subtitle subs c cfg))),
     snd (fst (apply_subtitle subs c cfg)),
     snd (apply_subtitle subs c cfg)).
Proof.
  unfold apply_subtitle.
  change (input (set_audio args cfg)) with (input cfg).
  change (current_filter (set_audio args cfg)) with (current_filter cfg).
  destruct (select_subtitle subs c) as [[k t]|]; [|reflexivity].
  now destruct (current_filter cfg).
Qed.

Lemma apply_preset_with_audio (p : option Preset) (args : list string)
    (cfg : CmdConfig) :
  apply_preset p (set_audio args cfg)
  = and_then (apply_preset p cfg) (fun c => Ok (set_audio args c)).
Proof. now destruct p. Qed.

Lemma apply_scale_with_audio (r : string) (args : list string)
    (cfg : CmdConfig) :
  apply_scale r (set_audio args cfg)
  = and_then (apply_scale r cfg) (fun c => Ok (set_audio args c)).
Proof.
  unfold apply_scale.
  change (current_filter (set_audio args cfg)) with (current_filter cfg).
  destruct (Py.truthy r && Py.isdigit r); [|reflexivity].
  destruct (Py.int r); [|reflexivity].
  destruct (current_filter cfg) as [f|]; [|reflexivity].
  now destruct (Py.contains "[aout]" f).
Qed.

Lemma apply_copy_with_audio (b : bool) (args : list string) (cfg : CmdConfig) :
  apply_copy b (set_audio args cfg) = set_audio args (apply_copy b cfg).
Proof. now destruct b. Qed.

(** Nor do they read them: changing the audio arguments beforehand changes
    nothing else in the outcome. *)
Lemma video_stages_with_audio (subs : list Track) (d : Decision)
    (args : list string) (cfg : CmdConfig) :
  video_stages subs d (set_audio args cfg)
  = and_then (video_stages subs d cfg) (fun a => Ok (with_audio args a)).
Proof.
  unfold video_stages.
  assert (E : subtitle_stage subs d (set_audio args cfg)
              = (set_audio args (fst (fst (subtitle_stage subs d cfg))),
                 snd (fst (subtitle_stage subs d cfg)),
                 snd (subtitle_stage subs d cfg))).
  { unfold subtitle_stage. destruct subs; [reflexivity|].
    apply apply_subtitle_with_audio. }
  rewrite E. cbn [fst snd].
  destruct (if snd (subtitle_stage subs d cfg) then true else reencode d).
  - rewrite apply_preset_with_audio.
    destruct (apply_preset (preset d) _) as [c|]; [|reflexivity].
    cbn [and_then]. rewrite apply_scale_with_audio.
    destruct (apply_scale (res_choice d) c) as [c3|]; [|reflexivity].
    cbn [and_then]. unfold with_audio. cbn [config reencoded burned].
    now rewrite apply_copy_with_audio.
  - cbn [and_then]. unfold with_audio. cbn [config reencoded burned].
    now rewrite apply_copy_with_audio.
Qed.

(** ** Audio arguments *)

Lemma assemble_audio (s : Settings) (p : InputPath) (au subs : list Track)
    (d : Decision) (cfg1 : CmdConfig) (a : Assembled) :
  audio_stage s au d (initial_config s p) = Ok cfg1 ->
  assemble s p au subs d = Ok a ->
  audio_settings (config a) = audio_settings cfg1.
Proof.
  unfold assemble. intros -> H. cbn [and_then] in H.
  now apply video_stages_audio in H.
Qed.

(** C5. With audio_mode = include on a file that has audio tracks: for the
    empty track list the audio arguments are exactly -map 0:a -c:a copy, for
    the track list "-" they are exactly -an.  In both cases the audio stage
    leaves the filter graph unset, and the finished command is the one the
    later stages build on their own, with these audio arguments. *)
Theorem C5_include_all_or_none
    (s : Settings) (p : InputPath) (au subs : list Track) (d : Decision)
    (t : string) (args : list string) :
  au <> [] ->
  choice d = PyStr "1" ->
  track_list d = Some (PyStr t) ->
  (t = "" /\ args = ["-map"; "0:a"; "-c:a"; "copy"])
  \/ (t = "-" /\ args = ["-an"]) ->
  audio_stage s au d (initial_config s p)
  = Ok (set_audio args (initial_config s p))
  /\ filter_complex (set_audio args (initial_config s p)) = None
  /\ assemble s p au subs d
     = and_then (video_stages subs d (initial_config s p))
         (fun a => Ok (with_audio args a))
  /\ forall a, assemble s p au subs d = Ok a ->
               audio_settings (config a) = args.
Proof.
  intros Hau Hc Ht Hcase.
  assert (A : audio_stage s au d (initial_config s p)
              = Ok (set_audio args (initial_config s p))).
  { unfold audio_stage, apply_audio. destruct au as [|x au]; [congruence|].
    rewrite Hc, Ht.
    destruct Hcase as [[-> ->]|[-> ->]]; reflexivity. }
  split; [exact A|]. split; [reflexivity|]. split.
  - unfold assemble. rewrite A. cbn [and_then].
    apply video_stages_with_audio.
  - intros a H. now rewrite (assemble_audio _ _ _ _ _ _ _ A H).
Qed.

Lemma C5_include_all_or_none_witness :
  audio_stage ENCODE_SETTINGS Sample.audio
    (Sample.decide "1" "" "" false "")
    (initial_config ENCODE_SETTINGS Sample.movie)
  = Ok (set_audio ["-map"; "0:a"; "-c:a"; "copy"]
          (initial_config ENCODE_SETTINGS Sample.movie))
  /\ audio_settings
       (config
          {| config :=
               set_video ["-map"; "0:v"; "-c:v"; "copy"]
                 (set_audio ["-map"; "0:a"; "-c:a"; "copy"]
                    (initial_config ENCODE_SETTINGS Sample.movie));
             reencoded := false;
             burned := None |})
     = ["-map"; "0:a"; "-c:a"; "copy"].
Proof.
  assert (W := C5_include_all_or_none ENCODE_SETTINGS Sample.movie
                 Sample.audio Sample.subs (Sample.decide "1" "" "" false "")
                 "" ["-map"; "0:a"; "-c:a"; "copy"]).
  destruct W as [A [_ [_ F]]].
  - discriminate.
  - reflexivity.
  - reflexivity.
  - left; split; reflexivity.
  - split; [exact A | apply F; reflexivity].
Defined.

(** C9. With audio_mode = merge and an empty track list on a file that has
    audio tracks, the audio stage changes nothing: no audio argument and no
    filter graph, and the finished command is exactly what the later stages
    build, with an empty list of audio arguments. *)
Theorem C9_merge_nothing
    (s : Settings) (p : InputPath) (au subs : list Track) (d : Decision) :
  au <> [] ->
  choice d = PyStr "2" ->
  track_list d = Some (PyStr "") ->
  audio_stage s au d (initial_config s p) = Ok (initial_config s p)
  /\ audio_settings (initial_config s p) = []
  /\ filter_complex (initial_config s p) = None
  /\ assemble s p au subs d = video_stages subs d (initial_config s p)
  /\ forall a, assemble s p au subs d = Ok a ->
               audio_settings (config a) = []
               /\ build_cmd (config a)
                  = (["ffmpeg"; "-i"; input (config a)]
                     ++ match current_filter (config a) with
                        | Some f => ["-filter_complex"; f]
                        | None => []
                        end
                     ++ video_settings (config a) ++ [output (config a)])%list.
Proof.
  intros Hau Hc Ht.
  assert (A : audio_stage s au d (initial_config s p)
              = Ok (initial_config s p)).
  { unfold audio_stage, apply_audio. destruct au as [|x au]; [congruence|].
    now rewrite Hc, Ht. }
  split; [exact A|]. do 2 (split; [reflexivity|]). split.
  - unfold assemble. now rewrite A.
  - intros a H. assert (E := assemble_audio _ _ _ _ _ _ _ A H).
    split; [exact E|]. unfold build_cmd. now rewrite E.
Qed.

Lemma C9_merge_nothing_witness :
  assemble ENCODE_SETTINGS Sample.movie Sample.audio Sample.subs
    (Sample.decide "2" "" "" false "")
  = video_stages Sample.subs (Sample.decide "2" "" "" false "")
      (initial_config ENCODE_SETTINGS Sample.movie).
Proof.
  apply (C9_merge_nothing ENCODE_SETTINGS Sample.movie Sample.audio
           Sample.subs (Sample.decide "2" "" "" false "")).
  - discriminate.
  - reflexivity.
  - reflexivity.
Defined.

(** ** The graph after the merge fragment *)

Lemma current_filter_merge (ids : list string) (rest : string)
    (cfg : CmdConfig) :
  filter_complex cfg = Some (merge_filter ids ++ rest) ->
  current_filter cfg = Some (merge_filter ids ++ rest).
Proof.
  unfold current_filter. intros ->.
  now rewrite (contains_truthy "[aout]" _ eq_refl (merge_filter_contains _ _)).
Qed.

(** Whatever the later stages do, a graph that starts with the merge fragment
    still starts with it at the end. *)
Lemma video_stages_keep_merge (subs : list Track) (d : Decision)
    (cfg1 : CmdConfig) (ids : list string) (a : Assembled) :
  filter_complex cfg1 = Some (merge_filter ids) ->
  video_stages subs d cfg1 = Ok a ->
  exists rest, filter_complex (config a) = Some (merge_filter ids ++ rest).
Proof.
  intros F H. unfold video_stages in H.
  assert (F2 : exists r2,
             filter_complex (fst (fst (subtitle_stage subs d cfg1)))
             = Some (merge_filter ids ++ r2)).
  { unfold subtitle_stage, apply_subtitle.
    rewrite <- (append_nil_r (merge_filter ids)) in F.
    destruct subs as [|t subs]; [eauto|].
    destruct (select_subtitle _ _) as [[k tr]|]; [|eauto].
    rewrite (current_filter_merge _ _ _ F). cbn [fst filter_complex set_video
      set_filter]. rewrite append_assoc. eauto. }
  destruct F2 as [r2 F2].
  set (cfg2 := fst (fst (subtitle_stage subs d cfg1))) in *.
  destruct (if snd (subtitle_stage subs d cfg1) then true else reencode d).
  - unfold apply_preset in H. destruct (preset d) as [pr|]; [|discriminate].
    cbn [and_then] in H. unfold apply_scale in H.
    match type of H with
    | context [current_filter ?c] =>
        assert (C : current_filter c = Some (merge_filter ids ++ r2))
          by (apply current_filter_merge; exact F2)
    end.
    rewrite C, merge_filter_contains in H.
    destruct (Py.truthy (res_choice d) && Py.isdigit (res_choice d)).
    + destruct (Py.int (res_choice d)); [|discriminate].
      cbn [and_then] in H. inversion H; subst a; clear H.
      cbn [config apply_copy negb filter_complex set_video set_filter].
      rewrite append_assoc. eauto.
    + cbn [and_then] in H. inversion H; subst a; clear H.
      cbn [config apply_copy negb filter_complex set_video set_filter]. eauto.
  - cbn [and_then] in H. inversion H; subst a; clear H.
    cbn [config apply_copy negb filter_complex set_video set_filter]. eauto.
Qed.

(** C6. With audio_mode = merge and the track list [0, 2] on a file that has
    audio tracks, the audio stage sets the graph to
    [0:a:0][0:a:2]amerge=inputs=2[aout] and the audio arguments to
    -map [aout] -c:a followed by the configured merged-audio codec; the
    finished command keeps these arguments and its graph starts with that
    fragment. *)
Theorem C6_merge_two_tracks
    (s : Settings) (p : InputPath) (au subs : list Track) (d : Decision)
    (t : string) :
  au <> [] ->
  choice d = PyStr "2" ->
  track_list d = Some (PyStr t) ->
  Py.split t = ["0"; "2"] ->
  audio_stage s au d (initial_config s p)
  = Ok (set_audio ["-map"; "[aout]"; "-c:a"; merged_audio_codec s]
          (set_filter (Some "[0:a:0][0:a:2]amerge=inputs=2[aout]")
             (initial_config s p)))
  /\ forall a,
       assemble s p au subs d = Ok a ->
       audio_settings (config a)
       = ["-map"; "[aout]"; "-c:a"; merged_audio_codec s]
       /\ exists rest,
            filter_complex (config a)
            = Some ("[0:a:0][0:a:2]amerge=inputs=2[aout]" ++ rest).
Proof.
  intros Hau Hc Ht Hs.
  assert (T : Py.truthy t = true) by (destruct t; [discriminate | reflexivity]).
  assert (A : audio_stage s au d (initial_config s p)
              = Ok (set_audio ["-map"; "[aout]"; "-c:a"; merged_audio_codec s]
                      (set_filter (Some (merge_filter ["0"; "2"]))
                         (initial_config s p)))).
  { unfold audio_stage, apply_audio. destruct au as [|x au]; [congruence|].
    rewrite Hc, Ht. cbn [pyval_eqb String.eqb Ascii.eqb Bool.eqb].
    now rewrite T, Hs. }
  split; [exact A|].
  intros a H. split.
  - now rewrite (assemble_audio _ _ _ _ _ _ _ A H).
  - unfold assemble in H. rewrite A in H. cbn [and_then] in H.
    refine (video_stages_keep_merge subs d _ ["0"; "2"] a _ H).
    reflexivity.
Qed.

Lemma C6_merge_two_tracks_witness :
  audio_stage ENCODE_SETTINGS Sample.audio
    (Sample.decide "2" "0 2" "" false "")
    (initial_config ENCODE_SETTINGS Sample.movie)
  = Ok (set_audio ["-map"; "[aout]"; "-c:a"; "aac"]
          (set_filter (Some "[0:a:0][0:a:2]amerge=inputs=2[aout]")
             (initial_config ENCODE_SETTINGS Sample.movie))).
Proof.
  apply (C6_merge_two_tracks ENCODE_SETTINGS Sample.movie Sample.audio
           Sample.subs (Sample.decide "2" "0 2" "" false "") "0 2").
  - discriminate.
  - reflexivity.
  - reflexivity.
  - reflexivity.
Defined.

(** ** Stream copy *)

(** When the answer is not to reencode and no subtitle is selected, the
    command is built whatever the other answers are. *)
Lemma assemble_copy (s : Settings) (p : InputPath) (au subs : list Track)
    (d : Decision) (cfg1 : CmdConfig) :
  audio_stage s au d (initial_config s p) = Ok cfg1 ->
  select_subtitle subs (sub_choice d) = None ->
  reencode d = false ->
  assemble s p au subs d
  = Ok {| config := set_video ["-map"; "0:v"; "-c:v"; "copy"] cfg1;
          reencoded := false;
          burned := None |}.
Proof.
  intros A N R. unfold assemble. rewrite A. cbn [and_then].
  unfold video_stages, subtitle_stage, apply_subtitle. rewrite N.
  destruct subs; cbn [fst snd]; now rewrite R.
Qed.

(** A finished command that does not reencode copies the video stream. *)
Lemma not_reencoded_copies
    (s : Settings) (p : InputPath) (au subs : list Track) (d : Decision)
    (a : Assembled) :
  assemble s p au subs d = Ok a ->
  reencoded a = false ->
  video_settings (config a) = ["-map"; "0:v"; "-c:v"; "copy"].
Proof.
  unfold assemble, video_stages. intros H R.
  destruct (audio_stage _ _ _ _) as [cfg1|]; [|discriminate].
  cbn [and_then] in H. cbv zeta in H.
  destruct (if snd (subtitle_stage subs d cfg1) then true else reencode d)
    eqn:S.
  - destruct (and_then (apply_preset _ _) _) as [cfg3|]; [|discriminate].
    cbn [and_then] in H. injection H as <-. discriminate R.
  - cbn [and_then] in H. injection H as <-. reflexivity.
Qed.

(** C7. When the reencode answer is no and no subtitle track is selected
    (so that nothing forces reencoding), the command is built once the audio
    stage is through, it does not reencode, and its video arguments are
    exactly -map 0:v -c:v copy: neither the codec nor a parameter of a preset
    is among them.  Audio arguments and graph are those of the audio
    stage. *)
Theorem C7_copy_when_not_reencoding
    (s : Settings) (p : InputPath) (au subs : list Track) (d : Decision)
    (cfg1 : CmdConfig) :
  audio_stage s au d (initial_config s p) = Ok cfg1 ->
  select_subtitle subs (sub_choice d) = None ->
  reencode d = false ->
  exists a,
    assemble s p au subs d = Ok a
    /\ reencoded a = false
    /\ video_settings (config a) = ["-map"; "0:v"; "-c:v"; "copy"]
    /\ audio_settings (config a) = audio_settings cfg1
    /\ filter_complex (config a) = filter_complex cfg1.
Proof.
  intros A N R. eexists. split; [apply (assemble_copy _ _ _ _ _ _ A N R)|].
  repeat split.
Qed.

Lemma C7_copy_when_not_reencoding_witness :
  exists a,
    assemble ENCODE_SETTINGS Sample.movie Sample.audio Sample.subs
      (Sample.decide "1" "" "" false "720") = Ok a
    /\ reencoded a = false
    /\ video_settings (config a) = ["-map"; "0:v"; "-c:v"; "copy"]
    /\ audio_settings (config a) = ["-map"; "0:a"; "-c:a"; "copy"]
    /\ filter_complex (config a) = None.
Proof.
  apply (C7_copy_when_not_reencoding ENCODE_SETTINGS Sample.movie
           Sample.audio Sample.subs (Sample.decide "1" "" "" false "720")
           (set_audio ["-map"; "0:a"; "-c:a"; "copy"]
              (initial_config ENCODE_SETTINGS Sample.movie))).
  - reflexivity.
  - reflexivity.
  - reflexivity.
Defined.

(** ** The path inside the subtitle fragment *)

Lemma apply_subtitle_selected (subs : list Track) (c : string)
    (cfg : CmdConfig) (k : Z) (t : Track) :
  select_subtitle subs c = Some (k, t) ->
  apply_subtitle subs c cfg
  = (set_video (["-map"; "[vout]"] ++ skipn 2 (video_settings cfg))%list
       (set_filter
          (Some (match current_filter cfg with
                 | Some cur => cur ++ ";"
                 | None => ""
                 end ++ subtitle_filter (escape_path (input cfg)) k))
          cfg),
     Some t, true).
Proof.
  unfold apply_subtitle. intros ->.
  destruct (current_filter cfg); [|reflexivity].
  now rewrite append_assoc.
Qed.

(** Right after the burn-in stage: the two replacements of line 286 write the
    path character by character as the escaping rule says (a backslash as two
    backslashes, a colon as backslash-colon, anything else unchanged), and the
    subtitle fragment the stage adds to the graph carries the path in that
    form between the quotes. *)
Lemma path_escaped_at_burn_in
    (subs : list Track) (c : string) (cfg : CmdConfig) (k : Z) (t : Track) :
  select_subtitle subs c = Some (k, t) ->
  escape_path (input cfg) = escape_spec (input cfg)
  /\ exists before,
       filter_complex (fst (fst (apply_subtitle subs c cfg)))
       = Some (before ++ "[0:v]subtitles='" ++ escape_spec (input cfg)
               ++ "':si=" ++ Py.str k ++ "[vout]").
Proof.
  intros S. split; [apply escape_path_spec|].
  rewrite (apply_subtitle_selected _ _ _ _ _ S).
  cbn [fst filter_complex set_video set_filter].
  rewrite escape_path_spec. unfold subtitle_filter. eauto.
Qed.

Example path_escaped_at_burn_in_ex :
  escape_path "C:\v\a.mkv" = "C\:\\v\\a.mkv"
  /\ exists before,
       filter_complex
         (fst (fst (apply_subtitle Sample.subs "0"
                      (initial_config ENCODE_SETTINGS Sample.movie))))
       = Some (before ++ "[0:v]subtitles='C\:\\v\\a.mkv':si=0[vout]").
Proof.
  apply (path_escaped_at_burn_in Sample.subs "0"
           (initial_config ENCODE_SETTINGS Sample.movie) 0
           {| id := 0; title := "Subs"; language := "unknown" |}).
  reflexivity.
Qed.

(** C8 (the input on which the command does not carry the escaped path).
    The file /v/[vout].mkv, all audio included, subtitle track 0 burned in.
    Its escaped path is the path itself.  Without a target height the
    command carries it between the quotes; with the target height 720 the
    replacement of line 344 rewrites every [vout] of the graph, the one
    inside the quoted path included, and the command passed to ffmpeg no
    longer contains the escaped path between quotes. *)
Theorem C8_path_rewritten_by_scale :
  escape_path "/v/[vout].mkv" = "/v/[vout].mkv"
  /\ escape_spec "/v/[vout].mkv" = "/v/[vout].mkv"
  /\ invoked
       (snd (encode_video ENCODE_SETTINGS Sample.ffmpeg_ok Batch.vout_named
               Sample.probe 0 (Sample.world ["1"; ""; "0"; ""])))
     = [["ffmpeg"; "-i"; "/v/[vout].mkv"; "-filter_complex";
         "[0:v]subtitles='/v/[vout].mkv':si=0[vout]";
         "-map"; "[vout]"; "-c:v"; "libx264"; "-crf"; "24";
         "-preset"; "veryslow"; "-map"; "0:a"; "-c:a"; "copy";
         "/v/[vout]_done.mp4"]]
  /\ invoked
       (snd (encode_video ENCODE_SETTINGS Sample.ffmpeg_ok Batch.vout_named
               Sample.probe 0 (Sample.world ["1"; ""; "0"; "720"])))
     = [["ffmpeg"; "-i"; "/v/[vout].mkv"; "-filter_complex";
         "[0:v]subtitles='/v/[vtmp];[vtmp]scale=-1:720[vout].mkv':si=0[vtmp];[vtmp]scale=-1:720[vout]";
         "-map"; "[vout]"; "-c:v"; "libx264"; "-crf"; "24";
         "-preset"; "veryslow"; "-map"; "0:a"; "-c:a"; "copy";
         "/v/[vout]_done.mp4"]]
  /\ Py.contains "subtitles='/v/[vout].mkv'"
       "[0:v]subtitles='/v/[vtmp];[vtmp]scale=-1:720[vout].mkv':si=0[vtmp];[vtmp]scale=-1:720[vout]"
     = false.
Proof. repeat split; vm_compute; reflexivity. Qed.

(** ** Merge and scale side by side *)

Lemma current_filter_merge_only (ids : list string) (cfg : CmdConfig) :
  filter_complex cfg = Some (merge_filter ids) ->
  current_filter cfg = Some (merge_filter ids).
Proof.
  unfold current_filter. intros ->. now rewrite merge_filter_truthy.
Qed.

Lemma subtitle_stage_unselected (subs : list Track) (d : Decision)
    (cfg : CmdConfig) :
  select_subtitle subs (sub_choice d) = None ->
  subtitle_stage subs d cfg = (cfg, None, false).
Proof.
  intros N. unfold subtitle_stage, apply_subtitle. rewrite N.
  now destruct subs.
Qed.

(** The arguments a preset contributes. *)
Lemma apply_preset_some (pr : Preset) (cfg : CmdConfig) :
  apply_preset (Some pr) cfg
  = Ok (set_video
          (video_settings cfg ++ ["-c:v"; codec pr]
           ++ flat_map
                (fun kv => [("-" ++ fst kv)%string; str_scalar (snd kv)])
                (params pr))%list
          cfg).
Proof. reflexivity. Qed.

(** C3. Audio merge of a non-empty track list together with a target height
    [h], no subtitle selected: the command is built, and its graph is the
    merge fragment, which ends in [aout], then a semicolon, then the fragment
    [0:v]scale=-1:h[vout] reading the raw video; video comes from [vout] and
    audio from [aout]. *)
Theorem C3_merge_and_scale
    (s : Settings) (p : InputPath) (au subs : list Track) (d : Decision)
    (t : string) (pr : Preset) (h : Z) :
  au <> [] ->
  choice d = PyStr "2" ->
  track_list d = Some (PyStr t) ->
  Py.truthy t = true ->
  select_subtitle subs (sub_choice d) = None ->
  reencode d = true ->
  preset d = Some pr ->
  Py.isdigit (res_choice d) = true ->
  Py.int (res_choice d) = Some h ->
  (exists front, merge_filter (Py.split t) = front ++ "[aout]")
  /\ assemble s p au subs d
     = Ok {| config :=
               {| input := path_str p;
                  output := beside p (output_suffix s ++ output_extension s);
                  video_settings :=
                    (["-map"; "[vout]"; "-c:v"; codec pr]
                     ++ flat_map
                          (fun kv =>
                             [("-" ++ fst kv)%string; str_scalar (snd kv)])
                          (params pr))%list;
                  audio_settings :=
                    ["-map"; "[aout]"; "-c:a"; merged_audio_codec s];
                  filter_complex :=
                    Some (merge_filter (Py.split t) ++ ";"
                          ++ "[0:v]scale=-1:" ++ Py.str h ++ "[vout]") |};
             reencoded := true;
             burned := None |}.
Proof.
  intros Hau Hc Ht T N R P D I.
  split; [apply merge_filter_ends|].
  unfold assemble, audio_stage, apply_audio.
  destruct au as [|x au]; [congruence|].
  rewrite Hc, Ht. cbn [pyval_eqb String.eqb Ascii.eqb Bool.eqb]. rewrite T.
  cbn [and_then current_filter initial_config filter_complex].
  unfold video_stages. rewrite (subtitle_stage_unselected _ _ _ N).
  cbn [fst snd]. rewrite R, P, apply_preset_some. cbn [and_then].
  unfold apply_scale. rewrite D, I.
  assert (Tr : Py.truthy (res_choice d) = true).
  { unfold Py.isdigit in D. now apply andb_true_iff in D. }
  rewrite Tr. cbn [andb].
  rewrite (current_filter_merge_only (Py.split t)) by reflexivity.
  rewrite <- (append_nil_r (merge_filter (Py.split t))) at 1.
  rewrite merge_filter_contains.
  cbn [and_then]. reflexivity.
Qed.

Lemma C3_merge_and_scale_witness :
  assemble ENCODE_SETTINGS Sample.movie Sample.audio Sample.subs
    (Sample.decide "2" "0 1" "" true "720")
  = Ok {| config :=
            {| input := "C:\v\a.mkv";
               output := "C:\v\a_done.mp4";
               video_settings :=
                 ["-map"; "[vout]"; "-c:v"; "libx264"; "-crf"; "24";
                  "-preset"; "veryslow"];
               audio_settings := ["-map"; "[aout]"; "-c:a"; "aac"];
               filter_complex :=
                 Some "[0:a:0][0:a:1]amerge=inputs=2[aout];[0:v]scale=-1:720[vout]"
            |};
          reencoded := true;
          burned := None |}.
Proof.
  apply (C3_merge_and_scale ENCODE_SETTINGS Sample.movie Sample.audio
           Sample.subs (Sample.decide "2" "0 1" "" true "720") "0 1"
           DEFAULT_PRESET 720).
  - discriminate.
  - reflexivity.
  - reflexivity.
  - reflexivity.
  - reflexivity.
  - reflexivity.
  - reflexivity.
  - reflexivity.
  - reflexivity.
Defined.

(** ** Burn-in *)

Lemma select_subtitle_none_of_nil (c : string) : select_subtitle [] c = None.
Proof.
  unfold select_subtitle. destruct (Py.truthy c); [|reflexivity].
  now destruct (Py.int c).
Qed.

Lemma truthy_app_r (a b : string) :
  Py.truthy b = true -> Py.truthy (a ++ b) = true.
Proof. destruct a; [trivial | reflexivity]. Qed.

Lemma subtitle_filter_truthy (pre path : string) (k : Z) :
  Py.truthy (pre ++ subtitle_filter path k) = true.
Proof. apply truthy_app_r. reflexivity. Qed.

Lemma subtitle_filter_contains (pre path rest : string) (k : Z) :
  Py.contains ("si=" ++ Py.str k) ((pre ++ subtitle_filter path k) ++ rest)
  = true.
Proof.
  unfold subtitle_filter. generalize (Py.str k) as n. intros n.
  rewrite !append_assoc. do 3 apply contains_app_r.
  exact (contains_mid ("si=" ++ n) "':" ("[vout]" ++ rest)).
Qed.

Lemma replace_from_pass (a c : ascii) (old new s : string) :
  Ascii.eqb c a = false ->
  Py.replace_from (String a old) new 0 (String c s)
  = String c (Py.replace_from (String a old) new 0 s).
Proof.
  intros H. cbn [Py.replace_from]. now rewrite (prefix_head a c old s H).
Qed.

(** The rewriting of line 344 on a graph that is only the subtitle
    fragment: the path between the quotes is rewritten as well, the rest is
    kept, and the final label gives way to [new]. *)
Lemma replace_subtitle_filter (path new : string) (k : Z) :
  Py.replace "[vout]" new (subtitle_filter path k)
  = "[0:v]subtitles='" ++ Py.replace "[vout]" new path
    ++ "':si=" ++ Py.str k ++ new.
Proof.
  unfold subtitle_filter, Py.replace.
  change ("[0:v]subtitles='" ++ path ++ "':si=" ++ Py.str k ++ "[vout]")
    with ("[0:v]subtitles="
          ++ String "'" (path ++ String "'" (":si=" ++ Py.str k ++ "[vout]"))).
  rewrite (replace_from_boundary "[vout]" new) by (reflexivity || (simpl; lia)).
  rewrite (replace_from_absent "[vout]" new "[0:v]subtitles=") by reflexivity.
  rewrite (replace_from_pass "[" "'") by reflexivity.
  rewrite (replace_from_boundary "[vout]" new) by (reflexivity || (simpl; lia)).
  rewrite (replace_from_pass "[" "'") by reflexivity.
  rewrite (replace_from_copy "[" "vout]" new ":si=") by reflexivity.
  rewrite (replace_from_copy "[" "vout]" new (Py.str k))
    by apply str_avoids_bracket.
  change (Py.replace_from "[vout]" new 0 "[vout]") with (new ++ "").
  rewrite append_nil_r. reflexivity.
Qed.

(** ** The scale stage by cases *)

Lemma apply_scale_skip (r : string) (cfg : CmdConfig) :
  Py.isdigit r = false -> apply_scale r cfg = Ok cfg.
Proof. unfold apply_scale. intros ->. now rewrite andb_false_r. Qed.

Lemma apply_scale_on_graph (r : string) (h : Z) (f : string)
    (cfg : CmdConfig) :
  Py.isdigit r = true -> Py.int r = Some h -> current_filter cfg = Some f ->
  apply_scale r cfg
  = Ok (if Py.contains "[aout]" f
        then set_video
               (["-map"; "[vout]"] ++ skipn 2 (video_settings cfg))%list
               (set_filter
                  (Some (f ++ ";" ++ "[0:v]scale=-1:" ++ Py.str h ++ "[vout]"))
                  cfg)
        else set_filter
               (Some (Py.replace "[vout]"
                        ("[vtmp];[vtmp]scale=-1:" ++ Py.str h ++ "[vout]") f))
               cfg).
Proof.
  intros D I C. unfold apply_scale. rewrite D, I, C.
  assert (T : Py.truthy r = true).
  { unfold Py.isdigit in D. now apply andb_true_iff in D. }
  rewrite T. cbn [andb]. now destruct (Py.contains "[aout]" f).
Qed.

Lemma current_filter_some (f : string) (cfg : CmdConfig) :
  filter_complex cfg = Some f -> Py.truthy f = true ->
  current_filter cfg = Some f.
Proof. unfold current_filter. now intros -> ->. Qed.

(** With a selected subtitle track the command reencodes, maps [vout] and
    names the track in the graph, in each of the three cases of the scale
    stage. *)
Lemma burn_in_reencodes
    (s : Settings) (p : InputPath) (au subs : list Track) (d : Decision)
    (k : Z) (t : Track) (cfg1 : CmdConfig) (pr : Preset) (hv : option Z) :
  select_subtitle subs (sub_choice d) = Some (k, t) ->
  audio_stage s au d (initial_config s p) = Ok cfg1 ->
  preset d = Some pr ->
  int_if_digit (res_choice d) = Ok hv ->
  exists a,
    assemble s p au subs d = Ok a
    /\ reencoded a = true
    /\ burned a = Some t
    /\ firstn 2 (video_settings (config a)) = ["-map"; "[vout]"]
    /\ exists f, filter_complex (config a) = Some f
                 /\ Py.contains ("si=" ++ Py.str k) f = true.
Proof.
  intros S A P I.
  destruct (audio_stage_filter s au d (initial_config s p) cfg1 eq_refl A)
    as [F|[ids F]].
  - (* no merge fragment: the graph is the subtitle fragment alone *)
    assert (C1 : current_filter cfg1 = None)
      by (unfold current_filter; now rewrite F).
    unfold assemble. rewrite A. cbn [and_then].
    unfold video_stages, subtitle_stage.
    destruct subs as [|x subs];
      [rewrite select_subtitle_none_of_nil in S; discriminate|].
    rewrite (apply_subtitle_selected _ _ _ _ _ S), C1.
    cbn [fst snd append]. rewrite P, apply_preset_some. cbn [and_then].
    set (path := escape_path (input cfg1)).
    unfold int_if_digit in I.
    destruct (Py.isdigit (res_choice d)) eqn:D.
    + destruct (Py.int (res_choice d)) as [h|] eqn:E; [|discriminate].
      rewrite (apply_scale_on_graph _ h (subtitle_filter path k) _ D E)
        by (apply current_filter_some; reflexivity).
      cbn [and_then]. eexists. split; [reflexivity|].
      cbn [reencoded burned config apply_copy negb].
      do 2 (split; [reflexivity|]).
      destruct (Py.contains "[aout]" (subtitle_filter path k)).
      * split; [reflexivity|]. eexists. split; [reflexivity|].
        apply (subtitle_filter_contains "").
      * split; [reflexivity|]. eexists. split; [reflexivity|].
        rewrite replace_subtitle_filter. do 2 apply contains_app_r.
        exact (contains_mid ("si=" ++ Py.str k) "':" _).
    + rewrite (apply_scale_skip _ _ D). cbn [and_then].
      eexists. split; [reflexivity|].
      cbn [reencoded burned config apply_copy negb].
      do 3 (split; [reflexivity|]). eexists. split; [reflexivity|].
      rewrite <- (append_nil_r (subtitle_filter path k)).
      apply (subtitle_filter_contains "").
  - (* the merge fragment comes first, so scaling is appended *)
    assert (C1 : current_filter cfg1 = Some (merge_filter ids))
      by now apply current_filter_merge_only.
    unfold assemble. rewrite A. cbn [and_then].
    unfold video_stages, subtitle_stage.
    destruct subs as [|x subs];
      [rewrite select_subtitle_none_of_nil in S; discriminate|].
    rewrite (apply_subtitle_selected _ _ _ _ _ S), C1.
    cbn [fst snd]. rewrite P, apply_preset_some. cbn [and_then].
    set (path := escape_path (input cfg1)).
    set (f2 := (merge_filter ids ++ ";") ++ subtitle_filter path k).
    unfold int_if_digit in I.
    destruct (Py.isdigit (res_choice d)) eqn:D.
    + destruct (Py.int (res_choice d)) as [h|] eqn:E; [|discriminate].
      rewrite (apply_scale_on_graph _ h f2 _ D E)
        by (apply current_filter_some;
            [reflexivity | apply subtitle_filter_truthy]).
      assert (M : Py.contains "[aout]" f2 = true).
      { unfold f2. rewrite append_assoc. apply merge_filter_contains. }
      rewrite M. cbn [and_then]. eexists. split; [reflexivity|].
      cbn [reencoded burned config apply_copy negb].
      do 3 (split; [reflexivity|]). eexists. split; [reflexivity|].
      apply subtitle_filter_contains.
    + rewrite (apply_scale_skip _ _ D). cbn [and_then].
      eexists. split; [reflexivity|].
      cbn [reencoded burned config apply_copy negb].
      do 3 (split; [reflexivity|]). eexists. split; [reflexivity|].
      rewrite <- (append_nil_r f2). apply subtitle_filter_contains.
Qed.

(** An answer that reads as the id of a listed track selects a track with
    that id. *)
Lemma select_subtitle_existing (subs : list Track) (c : string) (k : Z) :
  Py.int c = Some k -> In k (map id subs) ->
  exists t, select_subtitle subs c = Some (k, t) /\ id t = k.
Proof.
  intros I H. unfold select_subtitle.
  assert (T : Py.truthy c = true) by (destruct c; [discriminate | reflexivity]).
  rewrite T, I.
  induction subs as [|x subs IH]; [contradiction|].
  cbn [find]. destruct (Z.eqb_spec (id x) k) as [E|N].
  - exists x. now split.
  - destruct H as [H|H]; [congruence | now apply IH].
Qed.

(** C4. On a file with subtitle tracks, when the subtitle answer reads as
    the id [k] of one of them (and the audio stage is through, a preset is at
    hand and the height answer can be read), the command is built and,
    whatever the reencode answer is, it reencodes: a track with id [k] is
    burned in, the video arguments start with -map [vout], and the graph
    contains si=k. *)
Theorem C4_burn_in_forces_reencode
    (s : Settings) (p : InputPath) (au subs : list Track) (d : Decision)
    (k : Z) (cfg1 : CmdConfig) (pr : Preset) (hv : option Z) :
  Py.int (sub_choice d) = Some k ->
  In k (map id subs) ->
  audio_stage s au d (initial_config s p) = Ok cfg1 ->
  preset d = Some pr ->
  int_if_digit (res_choice d) = Ok hv ->
  exists a,
    assemble s p au subs d = Ok a
    /\ reencoded a = true
    /\ (exists t, burned a = Some t /\ id t = k)
    /\ firstn 2 (video_settings (config a)) = ["-map"; "[vout]"]
    /\ exists f, filter_complex (config a) = Some f
                 /\ Py.contains ("si=" ++ Py.str k) f = true.
Proof.
  intros I H A P R.
  destruct (select_subtitle_existing subs _ k I H) as (t & S & E).
  destruct (burn_in_reencodes s p au subs d k t cfg1 pr hv S A P R)
    as (a & Ha & Hr & Hb & Hv & Hf).
  exists a. repeat split; try assumption. now exists t.
Qed.

Lemma C4_burn_in_forces_reencode_witness :
  exists a,
    assemble ENCODE_SETTINGS Sample.movie Sample.audio Sample.subs
      (Sample.decide "1" "" "0" false "720") = Ok a
    /\ reencoded a = true
    /\ (exists t, burned a = Some t /\ id t = 0%Z)
    /\ firstn 2 (video_settings (config a)) = ["-map"; "[vout]"]
    /\ exists f, filter_complex (config a) = Some f
                 /\ Py.contains "si=0" f = true.
Proof.
  apply (C4_burn_in_forces_reencode ENCODE_SETTINGS Sample.movie Sample.audio
           Sample.subs (Sample.decide "1" "" "0" false "720") 0
           (set_audio ["-map"; "0:a"; "-c:a"; "copy"]
              (initial_config ENCODE_SETTINGS Sample.movie))
           DEFAULT_PRESET (Some 720%Z)).
  - reflexivity.
  - left. reflexivity.
  - reflexivity.
  - reflexivity.
  - reflexivity.
Defined.

(** ** Scale after burn-in *)

(** Where a label-like text can occur in the subtitle fragment: in the part
    before the path, in the path, or at the very end. *)
Lemma contains_subtitle_filter (x path : string) (k : Z) :
  avoids "'" (String "[" x) = true ->
  Py.contains (String "[" x) (subtitle_filter path k)
  = Py.contains (String "[" x) "[0:v]subtitles="
    || (Py.contains (String "[" x) path
        || Py.contains (String "[" x) "[vout]").
Proof.
  intros H. unfold subtitle_filter.
  change ("[0:v]subtitles='" ++ path ++ "':si=" ++ Py.str k ++ "[vout]")
    with ("[0:v]subtitles="
          ++ String "'" (path ++ String "'" (":si=" ++ Py.str k ++ "[vout]"))).
  rewrite contains_boundary by exact H. f_equal.
  change (String "'" (path ++ String "'" (":si=" ++ Py.str k ++ "[vout]")))
    with ("'" ++ (path ++ String "'" (":si=" ++ Py.str k ++ "[vout]"))).
  rewrite (contains_copy "[" x "'") by reflexivity.
  rewrite contains_boundary by exact H. f_equal.
  change (String "'" (":si=" ++ Py.str k ++ "[vout]"))
    with ("':si=" ++ (Py.str k ++ "[vout]")).
  rewrite (contains_copy "[" x "':si=") by reflexivity.
  now rewrite (contains_copy "[" x (Py.str k)) by apply str_avoids_bracket.
Qed.

(** On a file whose path contains neither the text [aout] nor the text
    [vout] in brackets, burn-in followed by a target height [h], without an
    audio merge, gives the two-stage chain: the subtitle fragment writes
    [vtmp], the scale fragment reads it and writes [vout]. *)
Lemma scale_after_burn_in
    (s : Settings) (p : InputPath) (au subs : list Track) (d : Decision)
    (k : Z) (t : Track) (cfg1 : CmdConfig) (pr : Preset) (h : Z) :
  Py.contains "[aout]" (path_str p) = false ->
  Py.contains "[vout]" (path_str p) = false ->
  audio_stage s au d (initial_config s p) = Ok cfg1 ->
  filter_complex cfg1 = None ->
  select_subtitle subs (sub_choice d) = Some (k, t) ->
  preset d = Some pr ->
  Py.isdigit (res_choice d) = true ->
  Py.int (res_choice d) = Some h ->
  exists a,
    assemble s p au subs d = Ok a
    /\ filter_complex (config a)
       = Some ("[0:v]subtitles='" ++ escape_path (path_str p) ++ "':si="
               ++ Py.str k ++ "[vtmp];[vtmp]scale=-1:" ++ Py.str h ++ "[vout]")
    /\ firstn 2 (video_settings (config a)) = ["-map"; "[vout]"].
Proof.
  intros Ha Hv A F S P D E.
  destruct (audio_stage_frame _ _ _ _ _ A) as [Ein _].
  change (input (initial_config s p)) with (path_str p) in Ein.
  assert (C1 : current_filter cfg1 = None)
    by (unfold current_filter; now rewrite F).
  unfold assemble. rewrite A. cbn [and_then].
  unfold video_stages, subtitle_stage.
  destruct subs as [|x subs];
    [rewrite select_subtitle_none_of_nil in S; discriminate|].
  rewrite (apply_subtitle_selected _ _ _ _ _ S), C1, Ein.
  cbn [fst snd append]. rewrite P, apply_preset_some. cbn [and_then].
  set (path := escape_path (path_str p)).
  rewrite (apply_scale_on_graph _ h (subtitle_filter path k) _ D E)
    by (apply current_filter_some; reflexivity).
  assert (Na : Py.contains "[aout]" (subtitle_filter path k) = false).
  { rewrite contains_subtitle_filter by reflexivity.
    unfold path. rewrite contains_escape by reflexivity. now rewrite Ha. }
  assert (Nv : Py.contains "[vout]" path = false).
  { unfold path. rewrite contains_escape by reflexivity. exact Hv. }
  rewrite Na. cbn [and_then]. eexists. split; [reflexivity|].
  cbn [config apply_copy negb]. split; [|reflexivity].
  cbn [filter_complex set_filter set_video].
  rewrite replace_subtitle_filter.
  unfold Py.replace at 1. rewrite (replace_from_absent _ _ _ Nv).
  reflexivity.
Qed.

(** C2 (the input on which the chain is not built).  The file
    /v/[aout].mkv, all audio included, subtitle track 0 burned in, target
    height 720: the test of line 336 finds the text [aout] in the graph,
    inside the quoted path, and the scale fragment is appended beside the
    subtitle fragment.  No fragment writes [vtmp], and both fragments write
    [vout]. *)
Theorem C2_label_text_in_path :
  invoked
    (snd (encode_video ENCODE_SETTINGS Sample.ffmpeg_ok Sample.labelled
            Sample.probe 0 (Sample.world ["1"; ""; "0"; "720"])))
  = [["ffmpeg"; "-i"; "/v/[aout].mkv"; "-filter_complex";
      "[0:v]subtitles='/v/[aout].mkv':si=0[vout];[0:v]scale=-1:720[vout]";
      "-map"; "[vout]"; "-c:v"; "libx264"; "-crf"; "24";
      "-preset"; "veryslow"; "-map"; "0:a"; "-c:a"; "copy";
      "/v/[aout]_done.mp4"]]
  /\ producers "[vtmp]"
       "[0:v]subtitles='/v/[aout].mkv':si=0[vout];[0:v]scale=-1:720[vout]"
     = []
  /\ producers "[vout]"
       "[0:v]subtitles='/v/[aout].mkv':si=0[vout];[0:v]scale=-1:720[vout]"
     = ["[0:v]subtitles='/v/[aout].mkv':si=0[vout]";
        "[0:v]scale=-1:720[vout]"].
Proof. repeat split; vm_compute; reflexivity. Qed.

(** ** One writer per label *)

(** C1 (the input on which two fragments write the same label).  Tracks 0
    and 1 merged, subtitle track 0 burned in, target height 720: the command
    passed to ffmpeg has a graph of three fragments, and the subtitle
    fragment and the scale fragment both write [vout]. *)
Theorem C1_two_writers_of_vout :
  invoked
    (snd (encode_video ENCODE_SETTINGS Sample.ffmpeg_ok Sample.movie
            Sample.probe 0 (Sample.world ["2"; "0 1"; "0"; "720"])))
  = [["ffmpeg"; "-i"; "C:\v\a.mkv"; "-filter_complex";
      "[0:a:0][0:a:1]amerge=inputs=2[aout];[0:v]subtitles='C\:\\v\\a.mkv':si=0[vout];[0:v]scale=-1:720[vout]";
      "-map"; "[vout]"; "-c:v"; "libx264"; "-crf"; "24";
      "-preset"; "veryslow"; "-map"; "[aout]"; "-c:a"; "aac";
      "C:\v\a_done.mp4"]]
  /\ producers "[vout]"
       "[0:a:0][0:a:1]amerge=inputs=2[aout];[0:v]subtitles='C\:\\v\\a.mkv':si=0[vout];[0:v]scale=-1:720[vout]"
     = ["[0:v]subtitles='C\:\\v\\a.mkv':si=0[vout]";
        "[0:v]scale=-1:720[vout]"].
Proof. split; vm_compute; reflexivity. Qed.

(** The same holds for every merged track list, every selected subtitle
    track and every height: the graph ends with two fragments that both
    write [vout]. *)
Lemma merge_burn_in_scale_graph
    (s : Settings) (p : InputPath) (au subs : list Track) (d : Decision)
    (tl : string) (k : Z) (t : Track) (pr : Preset) (h : Z) :
  au <> [] ->
  choice d = PyStr "2" ->
  track_list d = Some (PyStr tl) ->
  Py.truthy tl = true ->
  select_subtitle subs (sub_choice d) = Some (k, t) ->
  preset d = Some pr ->
  Py.isdigit (res_choice d) = true ->
  Py.int (res_choice d) = Some h ->
  exists a,
    assemble s p au subs d = Ok a
    /\ filter_complex (config a)
       = Some ((merge_filter (Py.split tl) ++ ";")
               ++ subtitle_filter (escape_path (path_str p)) k
               ++ ";" ++ "[0:v]scale=-1:" ++ Py.str h ++ "[vout]").
Proof.
  intros Hau Hc Ht T S P D E.
  unfold assemble, audio_stage, apply_audio.
  destruct au as [|x au]; [congruence|].
  rewrite Hc, Ht. cbn [pyval_eqb String.eqb Ascii.eqb Bool.eqb]. rewrite T.
  cbn [and_then current_filter initial_config filter_complex].
  unfold video_stages, subtitle_stage.
  destruct subs as [|y subs];
    [rewrite select_subtitle_none_of_nil in S; discriminate|].
  rewrite (apply_subtitle_selected _ _ _ _ _ S).
  rewrite (current_filter_merge_only (Py.split tl)) by reflexivity.
  cbn [fst snd]. rewrite P, apply_preset_some. cbn [and_then].
  cbn [input set_audio set_filter].
  set (f2 := (merge_filter (Py.split tl) ++ ";")
             ++ subtitle_filter (escape_path (path_str p)) k).
  rewrite (apply_scale_on_graph _ h f2 _ D E)
    by (apply current_filter_some;
        [reflexivity | apply subtitle_filter_truthy]).
  assert (M : Py.contains "[aout]" f2 = true).
  { unfold f2. rewrite append_assoc. apply merge_filter_contains. }
  rewrite M. cbn [and_then]. eexists. split; [reflexivity|].
  cbn [config apply_copy negb filter_complex set_filter set_video].
  unfold f2. now rewrite !append_assoc.
Qed.

(** ** An audio choice other than 1 or 2 *)

(** C10 (counterexample to the claim as stated).  Second file of a batch
    ([file_index] 1), cache not in use, answer 3 to the audio question: no
    track list is asked for and none is read, the function goes on to the
    subtitle and reencode questions, runs ffmpeg without audio arguments and
    returns [True]. *)
Lemma C10_later_file_goes_on :
  encode_video ENCODE_SETTINGS Sample.ffmpeg_ok Sample.movie Sample.probe 1
    (Sample.world ["3"; ""; "n"])
  = (true,
     {| stdin := [];
        cached_settings := Some fresh_cache;
        invoked := [["ffmpeg"; "-i"; "C:\v\a.mkv"; "-map"; "0:v"; "-c:v";
                     "copy"; "C:\v\a_done.mp4"]] |}).
Proof. vm_compute. reflexivity. Qed.

(** C10 (amended).  On the first file ([file_index] 0) of a file with audio
    tracks, with no cache in use, an audio answer that after stripping is
    neither empty nor 1 nor 2 makes [encode_video] return [False] without
    running ffmpeg: the answer is stored, no track list is read, and storing
    the unbound track list raises. *)
Theorem C10_first_file_aborts
    (s : Settings) (run_ffmpeg : list string -> proc_result) (p : InputPath)
    (info : option (list Stream)) (w : World) (a : string)
    (rest : list string) :
  get_audio_tracks info <> [] ->
  match cached_settings w with
  | Some c => use_cache c = false
  | None => True
  end ->
  stdin w = a :: rest ->
  Py.strip a <> "" -> Py.strip a <> "1" -> Py.strip a <> "2" ->
  fst (encode_video s run_ffmpeg p info 0 w) = false
  /\ invoked (snd (encode_video s run_ffmpeg p info 0 w)) = invoked w
  /\ stdin (snd (encode_video s run_ffmpeg p info 0 w)) = rest.
Proof.
  intros Hau Hc Hin N0 N1 N2.
  unfold encode_video, configure, bind.
  destruct (get_audio_tracks info) as [|x au]; [congruence|].
  unfold ask_audio, bind, active_cache, read_input.
  assert (Ech : Py.or_default (Py.strip a) "1" = Py.strip a).
  { unfold Py.or_default. destruct (Py.strip a); [congruence | reflexivity]. }
  apply String.eqb_neq in N1, N2.
  destruct (cached_settings w) as [c|] eqn:Ec.
  - rewrite Hc, Hin, Ech. unfold store_first, store.
    cbn [cached_settings]. rewrite Ec, N1, N2.
    unfold ret, raise. cbn [cached_settings]. auto.
  - rewrite Hin. unfold store_first, store.
    cbn [cached_settings]. rewrite Ec. auto.
Qed.

Lemma C10_first_file_aborts_witness :
  fst (encode_video ENCODE_SETTINGS Sample.ffmpeg_ok Sample.movie
         Sample.probe 0 (Sample.world ["3"; ""; "n"])) = false
  /\ invoked
       (snd (encode_video ENCODE_SETTINGS Sample.ffmpeg_ok Sample.movie
               Sample.probe 0 (Sample.world ["3"; ""; "n"]))) = []
  /\ stdin
       (snd (encode_video ENCODE_SETTINGS Sample.ffmpeg_ok Sample.movie
               Sample.probe 0 (Sample.world ["3"; ""; "n"]))) = [""; "n"].
Proof.
  apply (C10_first_file_aborts ENCODE_SETTINGS Sample.ffmpeg_ok Sample.movie
           Sample.probe (Sample.world ["3"; ""; "n"]) "3" [""; "n"]).
  - discriminate.
  - reflexivity.
  - reflexivity.
  - discriminate.
  - discriminate.
  - discriminate.
Defined.

(** ** [encode_video] builds what [assemble] builds *)

Lemma bind_ok {A B} (m : M A) (k : A -> M B) (w w' : World) (b : B) :
  bind m k w = (Ok b, w') ->
  exists a w1, m w = (Ok a, w1) /\ k a w1 = (Ok b, w').
Proof.
  unfold bind. destruct (m w) as [[a|e] w1]; [eauto | discriminate].
Qed.

Lemma lift_ok {A} (r : result A) (w w' : World) (a : A) :
  lift r w = (Ok a, w') -> r = Ok a.
Proof. unfold lift. congruence. Qed.

Lemma ret_ok {A} (x a : A) (w w' : World) :
  ret x w = (Ok a, w') -> x = a.
Proof. unfold ret. congruence. Qed.

(** Every configuration [encode_video] arrives at is the one [assemble]
    gives for the values the collecting steps returned. *)
Lemma configure_assemble (s : Settings) (p : InputPath)
    (info : option (list Stream)) (i : nat) (w w' : World) (cfg : CmdConfig) :
  configure s p info i w = (Ok cfg, w') ->
  exists d a,
    assemble s p (get_audio_tracks info) (get_subtitle_tracks info) d = Ok a
    /\ config a = cfg.
Proof.
  unfold configure. intros H.
  apply bind_ok in H as (cfg1 & w1 & Ha & H).
  apply bind_ok in H as (sub & w2 & Hs & H).
  apply bind_ok in H as (should & w3 & Hr & H).
  apply bind_ok in H as (cfg3 & w4 & Hv & H).
  apply ret_ok in H. subst cfg.
  assert (A : exists c tl,
             match get_audio_tracks info with
             | _ :: _ => apply_audio (merged_audio_codec s) c tl
                           (initial_config s p)
             | [] => Ok (set_audio ["-an"] (initial_config s p))
             end = Ok cfg1).
  { destruct (get_audio_tracks info).
    - apply ret_ok in Ha. exists PyNone, None. now rewrite Ha.
    - apply bind_ok in Ha as (cl & w0 & _ & Ha). apply lift_ok in Ha. eauto. }
  assert (S : exists sc,
             sub = match get_subtitle_tracks info with
                   | _ :: _ => apply_subtitle (get_subtitle_tracks info) sc cfg1
                   | [] => (cfg1, None, false)
                   end).
  { destruct (get_subtitle_tracks info) as [|x l] eqn:E.
    - apply ret_ok in Hs. exists "". now rewrite Hs.
    - apply bind_ok in Hs as (sc & w0 & _ & Hs). apply ret_ok in Hs. eauto. }
  assert (R : exists r, should = if snd sub then true else r).
  { destruct (snd sub); [apply ret_ok in Hr | exists should]; eauto. }
  assert (V : exists pr rc,
             (if should then
                and_then (apply_preset pr (fst (fst sub)))
                  (fun c => apply_scale rc c)
              else Ok (fst (fst sub))) = Ok cfg3).
  { destruct should.
    - apply bind_ok in Hv as (pr & w5 & _ & Hv).
      apply bind_ok in Hv as (c & w6 & Hp & Hv).
      apply bind_ok in Hv as (rc & w7 & _ & Hv).
      apply lift_ok in Hp, Hv. exists pr, rc. now rewrite Hp.
    - apply ret_ok in Hv. exists None, "". now rewrite Hv. }
  destruct A as (c & tl & A), S as (sc & S), R as (r & R), V as (pr & rc & V).
  exists {| choice := c; track_list := tl; sub_choice := sc; reencode := r;
            preset := pr; res_choice := rc |}.
  eexists. split.
  - unfold assemble, audio_stage. cbn [choice track_list]. rewrite A.
    cbn [and_then]. unfold video_stages, subtitle_stage.
    cbn [sub_choice reencode preset res_choice].
    rewrite <- S, <- R, V. cbn [and_then]. reflexivity.
  - reflexivity.
Qed.

(** Only the last step of [encode_video] runs a process. *)
Lemma quiet_bind {A B} (m : M A) (k : A -> M B) :
  quiet m -> (forall a, quiet (k a)) -> quiet (bind m k).
Proof.
  unfold quiet, bind. intros Hm Hk w. specialize (Hm w).
  destruct (m w) as [[a|e] w1]; cbn [snd] in *; [|exact Hm].
  now rewrite Hk.
Qed.

Lemma quiet_ret {A} (a : A) : quiet (ret a).
Proof. now intros w. Qed.

Lemma quiet_raise {A} (e : exn) : quiet (@raise A e).
Proof. now intros w. Qed.

Lemma quiet_lift {A} (r : result A) : quiet (lift r).
Proof. now intros w. Qed.

Lemma quiet_read_input : quiet read_input.
Proof. intros w. unfold read_input. now destruct (stdin w). Qed.

Lemma quiet_active_cache : quiet active_cache.
Proof.
  intros w. unfold active_cache.
  destruct (cached_settings w) as [c|]; [|reflexivity].
  now destruct (use_cache c).
Qed.

Lemma quiet_store (f : CachedSettings -> CachedSettings) : quiet (store f).
Proof. intros w. unfold store. now destruct (cached_settings w). Qed.

Lemma quiet_store_first (i : nat) (f : CachedSettings -> CachedSettings) :
  quiet (store_first i f).
Proof. destruct i; [apply quiet_store | apply quiet_ret]. Qed.

Create HintDb quiet.

#[local] Hint Resolve quiet_ret quiet_raise quiet_lift quiet_read_input
  quiet_active_cache quiet_store quiet_store_first : quiet.

Ltac quiet_steps :=
  repeat first
    [ solve [auto with quiet]
    | match goal with
      | |- quiet (match ?x with _ => _ end) => destruct x
      | |- quiet (if ?b then _ else _) => destruct b
      end
    | apply quiet_bind; [|intros ?] ].

Lemma quiet_ask_audio (i : nat) : quiet (ask_audio i).
Proof. unfold ask_audio. quiet_steps. Qed.

Lemma quiet_ask_subtitle (i : nat) : quiet (ask_subtitle i).
Proof. unfold ask_subtitle. quiet_steps. Qed.

Lemma quiet_ask_reencode (i : nat) : quiet (ask_reencode i).
Proof. unfold ask_reencode. quiet_steps. Qed.

Lemma quiet_ask_resolution (i : nat) : quiet (ask_resolution i).
Proof. unfold ask_resolution. quiet_steps. Qed.

Lemma quiet_get_encoding_preset (all : list Preset) (i : nat) :
  quiet (get_encoding_preset all i).
Proof.
  unfold get_encoding_preset. quiet_steps;
    intros w; now destruct (prompt_preset _ (stdin w)).
Qed.

#[local] Hint Resolve quiet_ask_audio quiet_ask_subtitle quiet_ask_reencode
  quiet_ask_resolution quiet_get_encoding_preset : quiet.

Lemma quiet_configure (s : Settings) (p : InputPath)
    (info : option (list Stream)) (i : nat) :
  quiet (configure s p info i).
Proof. unfold configure. cbv zeta. quiet_steps. Qed.

(** Hence [encode_video] runs ffmpeg at most once, and on the argument list
    [build_cmd] of an assembled configuration. *)
Lemma encode_video_invokes (s : Settings)
    (run_ffmpeg : list string -> proc_result) (p : InputPath)
    (info : option (list Stream)) (i : nat) (w : World) :
  invoked (snd (encode_video s run_ffmpeg p info i w)) = invoked w
  \/ exists d a,
       assemble s p (get_audio_tracks info) (get_subtitle_tracks info) d
       = Ok a
       /\ invoked (snd (encode_video s run_ffmpeg p info i w))
          = (invoked w ++ [build_cmd (config a)])%list.
Proof.
  unfold encode_video, bind.
  assert (Q := quiet_configure s p info i w).
  destruct (configure s p info i w) as [[cfg|e] w1] eqn:C; cbn [snd] in Q.
  - right. destruct (configure_assemble _ _ _ _ _ _ _ C) as (d & a & Ha & <-).
    exists d, a. split; [exact Ha|].
    unfold run_encoder.
    destruct (run_ffmpeg (build_cmd (config a))); cbn [snd invoked];
      now rewrite Q.
  - left. exact Q.
Qed.

(** ** Runs of the script *)

Example strip_ex : Py.strip "  0  2 " = "0  2".
Proof. reflexivity. Qed.

Example split_ex : Py.split "0  2" = ["0"; "2"].
Proof. reflexivity. Qed.

Example replace_ex :
  Py.replace "aa" "b" "aaaxaa" = "baxb" /\ Py.replace "" "-" "ab" = "-a-b-".
Proof. split; reflexivity. Qed.

Example int_ex :
  Py.int "+1_0" = Some 10%Z /\ Py.int "1__0" = None /\ Py.int "" = None
  /\ Py.int "-3" = Some (-3)%Z /\ Py.int "007" = Some 7%Z.
Proof. repeat split; reflexivity. Qed.

Example str_ex : Py.str 720 = "720" /\ Py.str 0 = "0" /\ Py.str (-1) = "-1".
Proof. repeat split; reflexivity. Qed.

Example tracks_ex :
  Sample.audio
  = [ {| id := 0; title := "Main"; language := "unknown" |};
      {| id := 1; title := "Untitled"; language := "eng" |} ]
  /\ Sample.subs = [ {| id := 0; title := "Subs"; language := "unknown" |} ].
Proof. split; reflexivity. Qed.

(** Two audio tracks, one subtitle track; all audio included, subtitle 0
    burned in, the only preset, no change of resolution. *)
Example end_to_end :
  encode_video ENCODE_SETTINGS Sample.ffmpeg_ok Sample.movie Sample.probe 0
    (Sample.world [""; ""; "0"; ""])
  = (true,
     {| stdin := [];
        cached_settings :=
          Some {| use_cache := false;
                  audio_choice := PyStr "1";
                  audio_tracks := PyStr "";
                  subtitle_track := Some 0%Z;
                  should_reencode := false;
                  target_height := None;
                  encoding_preset := Some DEFAULT_PRESET |};
        invoked :=
          [["ffmpeg"; "-i"; "C:\v\a.mkv"; "-filter_complex";
            "[0:v]subtitles='C\:\\v\\a.mkv':si=0[vout]"; "-map"; "[vout]";
            "-c:v"; "libx264"; "-crf"; "24"; "-preset"; "veryslow";
            "-map"; "0:a"; "-c:a"; "copy"; "C:\v\a_done.mp4"]] |}).
Proof. vm_compute. reflexivity. Qed.

(** Burn-in and a target height on an ordinary path: the two-stage chain. *)
Example chain_ex :
  invoked
    (snd (encode_video ENCODE_SETTINGS Sample.ffmpeg_ok Sample.movie
            Sample.probe 0 (Sample.world ["1"; "-"; "0"; "720"])))
  = [["ffmpeg"; "-i"; "C:\v\a.mkv"; "-filter_complex";
      "[0:v]subtitles='C\:\\v\\a.mkv':si=0[vtmp];[vtmp]scale=-1:720[vout]";
      "-map"; "[vout]"; "-c:v"; "libx264"; "-crf"; "24";
      "-preset"; "veryslow"; "-an"; "C:\v\a_done.mp4"]].
Proof. vm_compute. reflexivity. Qed.

(** Two files, the second without the cache: answer 3 to its audio question
    is passed over and ffmpeg runs without audio arguments. *)
Example main_two_files :
  invoked
    (snd (main ENCODE_SETTINGS Sample.ffmpeg_ok [Sample.arg; Sample.arg]
            {| stdin := ["1"; ""; ""; "n"; "n"; "3"; ""; "n"; ""];
               cached_settings := None; invoked := [] |}))
  = [["ffmpeg"; "-i"; "C:\v\a.mkv"; "-map"; "0:v"; "-c:v"; "copy";
      "-map"; "0:a"; "-c:a"; "copy"; "C:\v\a_done.mp4"];
     ["ffmpeg"; "-i"; "C:\v\a.mkv"; "-map"; "0:v"; "-c:v"; "copy";
      "C:\v\a_done.mp4"]].
Proof. vm_compute. reflexivity. Qed.

(** Two files with the cache in use for the second: no question is asked
    for it and the same command is built. *)
Example main_cached :
  main ENCODE_SETTINGS Sample.ffmpeg_ok [Sample.arg; Sample.arg]
    {| stdin := ["2"; "0 1"; ""; "y"; "720"; "y"; ""];
       cached_settings := None; invoked := [] |}
  = (Ok tt,
     {| stdin := [];
        cached_settings :=
          Some {| use_cache := true;
                  audio_choice := PyStr "2";
                  audio_tracks := PyStr "0 1";
                  subtitle_track := None;
                  should_reencode := true;
                  target_height := Some 720%Z;
                  encoding_preset := Some DEFAULT_PRESET |};
        invoked :=
          [["ffmpeg"; "-i"; "C:\v\a.mkv"; "-filter_complex";
            "[0:a:0][0:a:1]amerge=inputs=2[aout];[0:v]scale=-1:720[vout]";
            "-map"; "[vout]"; "-c:v"; "libx264"; "-crf"; "24";
            "-preset"; "veryslow"; "-map"; "[aout]"; "-c:a"; "aac";
            "C:\v\a_done.mp4"];
           ["ffmpeg"; "-i"; "C:\v\a.mkv"; "-filter_complex";
            "[0:a:0][0:a:1]amerge=inputs=2[aout];[0:v]scale=-1:720[vout]";
            "-map"; "[vout]"; "-c:v"; "libx264"; "-crf"; "24";
            "-preset"; "veryslow"; "-map"; "[aout]"; "-c:a"; "aac";
            "C:\v\a_done.mp4"]] |}).
Proof. vm_compute. reflexivity. Qed.

(** * Further properties *)

(** ** Track lists *)

Lemma collect_tracks_spec (kind : string) (streams : list Stream)
    (found : list Track) :
  collect_tracks kind streams found
  = (found
     ++ map (fun it => track_of (fst it) (snd it))
          (combine
             (seq (List.length found)
                (List.length (filter (has_type kind) streams)))
             (filter (has_type kind) streams)))%list.
Proof.
  revert found; induction streams as [|st streams IH]; intros found.
  - cbn. now rewrite app_nil_r.
  - cbn [collect_tracks filter].
    assert (E : has_type kind st
                = match codec_type st with
                  | Some k => String.eqb k kind
                  | None => false
                  end) by reflexivity.
    rewrite E. destruct (codec_type st) as [k|]; [|apply IH].
    destruct (String.eqb k kind); [|apply IH].
    rewrite IH, length_app, Nat.add_1_r. cbn [List.length seq combine map].
    now rewrite <- app_assoc.
Qed.

(** X1. The audio (subtitle) tracks of a probe result are its streams of
    that type, in order, numbered from 0 within the type; the title is the
    title tag, else the handler name, else Untitled, and the language
    defaults to unknown. *)
Theorem tracks_enumerate_streams (streams : list Stream) :
  get_audio_tracks (Some streams)
  = map (fun it => track_of (fst it) (snd it))
      (combine (seq 0 (List.length (filter (has_type "audio") streams)))
         (filter (has_type "audio") streams))
  /\ get_subtitle_tracks (Some streams)
     = map (fun it => track_of (fst it) (snd it))
         (combine (seq 0 (List.length (filter (has_type "subtitle") streams)))
            (filter (has_type "subtitle") streams)).
Proof.
  split; unfold get_audio_tracks, get_subtitle_tracks;
    now rewrite collect_tracks_spec.
Qed.

Lemma ids_of_enumeration (l : list Stream) (n : nat) :
  map id (map (fun it => track_of (fst it) (snd it))
            (combine (seq n (List.length l)) l))
  = map Z.of_nat (seq n (List.length l)).
Proof.
  revert n; induction l as [|x l IH]; intros n; [reflexivity|].
  cbn. now rewrite IH.
Qed.

(** X2. The ids of a track list are 0, 1, ..., n-1 in this order, so an
    integer is the id of a subtitle track exactly when it is at least 0 and
    below the number of subtitle tracks. *)
Theorem track_ids_are_positions (info : option (list Stream)) (k : Z) :
  map id (get_subtitle_tracks info)
  = map Z.of_nat (seq 0 (List.length (get_subtitle_tracks info)))
  /\ map id (get_audio_tracks info)
     = map Z.of_nat (seq 0 (List.length (get_audio_tracks info)))
  /\ (In k (map id (get_subtitle_tracks info))
      <-> (0 <= k < Z.of_nat (List.length (get_subtitle_tracks info)))%Z).
Proof.
  assert (E : forall kind streams,
             map id (collect_tracks kind streams [])
             = map Z.of_nat
                 (seq 0 (List.length (collect_tracks kind streams [])))).
  { intros kind streams. rewrite collect_tracks_spec. cbn [app List.length].
    rewrite length_map, length_combine, length_seq, Nat.min_id.
    apply ids_of_enumeration. }
  assert (S : map id (get_subtitle_tracks info)
              = map Z.of_nat
                  (seq 0 (List.length (get_subtitle_tracks info)))).
  { destruct info; [apply E | reflexivity]. }
  split; [exact S|]. split; [destruct info; [apply E | reflexivity]|].
  rewrite S, in_map_iff. split.
  - intros (n & <- & H). apply in_seq in H. lia.
  - intros H. exists (Z.to_nat k). split; [lia|]. apply in_seq. lia.
Qed.

(** ** Reading back the text of an integer *)

Lemma digits_value_acc (d : Decimal.uint) (acc : positive) :
  Py.digits_value (Zpos acc) true (NilEmpty.string_of_uint d)
  = Some (Zpos (Pos.of_uint_acc d acc)).
Proof.
  revert acc; induction d; intros acc; [reflexivity | ..];
    cbn [NilEmpty.string_of_uint Py.digits_value Pos.of_uint_acc];
    match goal with
    | |- context [Py.is_decimal ?c] =>
        change (Py.is_decimal c) with true; cbv iota
    end;
    rewrite <- IHd; f_equal;
    match goal with
    | |- context [Z.of_nat ?t] =>
        let v := eval vm_compute in (Z.of_nat t) in
        change (Z.of_nat t) with v
    end; lia.
Qed.

Lemma digits_value_zero (d : Decimal.uint) (b : bool) :
  b = true \/ d <> Decimal.Nil ->
  Py.digits_value 0 b (NilEmpty.string_of_uint d)
  = Some (Z.of_N (Pos.of_uint d)).
Proof.
  revert b; induction d; intros b H;
    [destruct H as [->|H]; [reflexivity | congruence] | ..];
    cbn [NilEmpty.string_of_uint Py.digits_value Pos.of_uint];
    match goal with
    | |- context [Py.is_decimal ?c] =>
        change (Py.is_decimal c) with true; cbv iota
    end;
    [apply IHd; now left | ..];
    apply digits_value_acc.
Qed.

Lemma lstrip_id (c : ascii) (s : string) :
  Py.is_space c = false -> Py.lstrip (String c s) = String c s.
Proof. intros H. cbn. now rewrite H. Qed.

Lemma rstrip_id (s : string) :
  Py.all_chars (fun c => negb (Py.is_space c)) s = true -> Py.rstrip s = s.
Proof.
  induction s as [|c s IH]; [reflexivity|]. cbn. intros H.
  apply andb_true_iff in H as [Hc Hs]. apply negb_true_iff in Hc.
  now rewrite Hc, (IH Hs).
Qed.

Lemma strip_id (s : string) :
  Py.all_chars (fun c => negb (Py.is_space c)) s = true -> Py.strip s = s.
Proof.
  intros H. unfold Py.strip. destruct s as [|c s]; [reflexivity|].
  rewrite lstrip_id; [now apply rstrip_id|].
  cbn in H. apply andb_true_iff in H as [Hc _]. now apply negb_true_iff in Hc.
Qed.

Lemma plain_not_space (c : ascii) :
  plain c = true -> negb (Py.is_space c) = true.
Proof.
  intros H. apply negb_true_iff.
  destruct (Ascii.eqb_spec c "-") as [E|N]; [now rewrite E|].
  unfold plain in H. apply Ascii.eqb_neq in N. rewrite N, orb_false_r in H.
  unfold Py.is_decimal in H. unfold Py.is_space.
  apply andb_true_iff in H as [H1 H2]. apply Nat.leb_le in H1, H2.
  cbv zeta.
  replace (nat_of_ascii c <=? 13)%nat with false
    by (symmetry; apply Nat.leb_gt; lia).
  replace (nat_of_ascii c <=? 32)%nat with false
    by (symmetry; apply Nat.leb_gt; lia).
  replace (nat_of_ascii c =? 133)%nat with false
    by (symmetry; apply Nat.eqb_neq; lia).
  replace (nat_of_ascii c =? 160)%nat with false
    by (symmetry; apply Nat.eqb_neq; lia).
  now rewrite !andb_false_r.
Qed.

Lemma strip_str (n : Z) : Py.strip (Py.str n) = Py.str n.
Proof.
  apply strip_id, (all_chars_impl plain);
    [apply plain_not_space | apply str_plain].
Qed.

(** [int(str(n)) == n] for every integer. *)
Lemma int_str (n : Z) : Py.int (Py.str n) = Some n.
Proof.
  unfold Py.int. rewrite strip_str.
  unfold Py.str, Z.to_int, NilZero.string_of_int, NilZero.string_of_uint.
  destruct n as [|p|p]; [reflexivity | |].
  - assert (N := DecimalPos.Unsigned.to_uint_nonnil p).
    assert (E := DecimalPos.Unsigned.of_to p).
    destruct (Pos.to_uint p) as [|d|d|d|d|d|d|d|d|d|d] eqn:U;
      [congruence | ..];
      match goal with
      | |- match NilEmpty.string_of_uint ?u with _ => _ end = _ =>
          change (Py.digits_value 0 false (NilEmpty.string_of_uint u)
                  = Some (Zpos p));
          rewrite (digits_value_zero u false) by (right; discriminate);
          now rewrite E
      end.
  - assert (N := DecimalPos.Unsigned.to_uint_nonnil p).
    assert (E := DecimalPos.Unsigned.of_to p).
    assert (D : Py.digits_value 0 false
                  (NilEmpty.string_of_uint (Pos.to_uint p))
                = Some (Zpos p)).
    { rewrite digits_value_zero by now right. now rewrite E. }
    destruct (Pos.to_uint p) eqn:U; [congruence | ..];
      cbv iota; now rewrite D.
Qed.

Lemma string_of_uint_decimal (d : Decimal.uint) :
  Py.all_chars Py.is_decimal (NilEmpty.string_of_uint d) = true.
Proof. induction d; cbn; auto. Qed.

(** The text of a non-negative integer satisfies [isdigit]. *)
Lemma isdigit_str (n : Z) : (0 <= n)%Z -> Py.isdigit (Py.str n) = true.
Proof.
  intros H. unfold Py.isdigit.
  assert (A : Py.all_chars Py.is_decimal (Py.str n) = true).
  { unfold Py.str, Z.to_int, NilZero.string_of_int, NilZero.string_of_uint.
    destruct n as [|p|p]; [reflexivity | | lia].
    destruct (Pos.to_uint p) eqn:U; try reflexivity;
      rewrite <- U; apply string_of_uint_decimal. }
  apply andb_true_iff. split.
  - unfold Py.str, Z.to_int, NilZero.string_of_int, NilZero.string_of_uint.
    destruct n as [|p|p]; [reflexivity | | lia].
    assert (N := DecimalPos.Unsigned.to_uint_nonnil p).
    destruct (Pos.to_uint p); [congruence | ..]; reflexivity.
  - apply (all_chars_impl Py.is_decimal); [|exact A].
    intros c Hc. unfold Py.is_digit_char. now rewrite Hc.
Qed.

(** ** Files without tracks, and audio choices outside the claims *)

Lemma active_cache_collecting (w : World) (c : CachedSettings) :
  cached_settings w = Some c -> use_cache c = false ->
  active_cache w = (Ok None, w).
Proof. unfold active_cache. now intros -> ->. Qed.

(** The reencode question, asked with the cache not in use: one answer is
    read, and the first file stores the outcome. *)
Lemma ask_reencode_collecting (i : nat) (w : World) (c : CachedSettings)
    (a : string) (rest : list string) :
  cached_settings w = Some c -> use_cache c = false ->
  stdin w = a :: rest ->
  ask_reencode i w
  = (Ok (String.eqb (Py.lower (Py.strip a)) "y"),
     {| stdin := rest;
        cached_settings :=
          Some match i with
               | O => with_should_reencode
                        (String.eqb (Py.lower (Py.strip a)) "y") c
               | S _ => c
               end;
        invoked := invoked w |}).
Proof.
  intros Hc Hu Hin. unfold ask_reencode, bind.
  rewrite (active_cache_collecting w c Hc Hu).
  unfold read_input. rewrite Hin. unfold store_first, store, ret.
  destruct i; cbn [cached_settings]; now rewrite Hc.
Qed.

(** X3. When the probe shows neither audio nor subtitle tracks (in
    particular when ffprobe failed), the only question asked is the reencode
    question; with an answer other than y, ffmpeg is run once, copying the
    video and dropping audio with -an. *)
Theorem no_tracks_copy_run
    (s : Settings) (run_ffmpeg : list string -> proc_result) (p : InputPath)
    (info : option (list Stream)) (i : nat) (w : World) (a : string)
    (rest : list string) :
  get_audio_tracks info = [] ->
  get_subtitle_tracks info = [] ->
  collecting w ->
  stdin w = a :: rest ->
  String.eqb (Py.lower (Py.strip a)) "y" = false ->
  invoked (snd (encode_video s run_ffmpeg p info i w))
  = (invoked w
     ++ [["ffmpeg"; "-i"; path_str p; "-map"; "0:v"; "-c:v"; "copy"; "-an";
          beside p (output_suffix s ++ output_extension s)]])%list
  /\ stdin (snd (encode_video s run_ffmpeg p info i w)) = rest.
Proof.
  intros Ha Hs (c & Hc & Hu) Hin Hy.
  assert (C : configure s p info i w
              = (Ok (set_video ["-map"; "0:v"; "-c:v"; "copy"]
                       (set_audio ["-an"] (initial_config s p))),
                 {| stdin := rest;
                    cached_settings :=
                      Some match i with
                           | O => with_should_reencode false c
                           | S _ => c
                           end;
                    invoked := invoked w |})).
  { unfold configure. rewrite Ha, Hs. unfold bind, ret. cbn [snd fst].
    rewrite (ask_reencode_collecting i w c a rest Hc Hu Hin), Hy.
    reflexivity. }
  unfold encode_video, bind. rewrite C. unfold run_encoder.
  destruct (run_ffmpeg _); cbn [snd invoked stdin]; auto.
Qed.

Lemma no_tracks_copy_run_witness :
  invoked
    (snd (encode_video ENCODE_SETTINGS Sample.ffmpeg_ok Sample.movie None 0
            (Sample.world [""; "later"])))
  = [["ffmpeg"; "-i"; "C:\v\a.mkv"; "-map"; "0:v"; "-c:v"; "copy"; "-an";
      "C:\v\a_done.mp4"]]
  /\ stdin
       (snd (encode_video ENCODE_SETTINGS Sample.ffmpeg_ok Sample.movie None 0
               (Sample.world [""; "later"])))
     = ["later"].
Proof.
  apply (no_tracks_copy_run ENCODE_SETTINGS Sample.ffmpeg_ok Sample.movie
           None 0 (Sample.world [""; "later"]) "" ["later"]).
  - reflexivity.
  - reflexivity.
  - exists fresh_cache. split; reflexivity.
  - reflexivity.
  - reflexivity.
Defined.

(** X4. With choice 1 and a track list that is neither empty nor "-", the
    audio arguments are, for each listed id in order, -map 0:a:id -c:a copy;
    the graph is left unset by the audio stage and the finished command is
    the one the later stages build, with these audio arguments. *)
Theorem include_listed_tracks
    (s : Settings) (p : InputPath) (au subs : list Track) (d : Decision)
    (t : string) :
  au <> [] ->
  choice d = PyStr "1" ->
  track_list d = Some (PyStr t) ->
  t <> "" -> t <> "-" ->
  audio_stage s au d (initial_config s p)
  = Ok (set_audio
          (flat_map (fun track_id => ["-map"; "0:a:" ++ track_id; "-c:a"; "copy"])
             (Py.split t))
          (initial_config s p))
  /\ assemble s p au subs d
     = and_then (video_stages subs d (initial_config s p))
         (fun a =>
            Ok (with_audio
                  (flat_map
                     (fun track_id =>
                        ["-map"; "0:a:" ++ track_id; "-c:a"; "copy"])
                     (Py.split t))
                  a)).
Proof.
  intros Hau Hc Ht N0 N1.
  assert (A : audio_stage s au d (initial_config s p)
              = Ok (set_audio
                      (flat_map
                         (fun track_id =>
                            ["-map"; "0:a:" ++ track_id; "-c:a"; "copy"])
                         (Py.split t))
                      (initial_config s p))).
  { unfold audio_stage, apply_audio. destruct au as [|x au]; [congruence|].
    rewrite Hc, Ht. cbn [pyval_eqb].
    apply String.eqb_neq in N0, N1. rewrite N0, N1.
    rewrite String.eqb_refl. reflexivity. }
  split; [exact A|].
  unfold assemble. rewrite A. cbn [and_then]. apply video_stages_with_audio.
Qed.

Lemma include_listed_tracks_witness :
  audio_stage ENCODE_SETTINGS Sample.audio
    (Sample.decide "1" "1  0" "" false "")
    (initial_config ENCODE_SETTINGS Sample.movie)
  = Ok (set_audio
          ["-map"; "0:a:1"; "-c:a"; "copy"; "-map"; "0:a:0"; "-c:a"; "copy"]
          (initial_config ENCODE_SETTINGS Sample.movie)).
Proof.
  apply (include_listed_tracks ENCODE_SETTINGS Sample.movie Sample.audio
           Sample.subs (Sample.decide "1" "1  0" "" false "") "1  0").
  - discriminate.
  - reflexivity.
  - reflexivity.
  - discriminate.
  - discriminate.
Defined.

(** In the building steps, a choice that is neither 1 nor 2 leaves the
    configuration as it is, so a command assembled from it has no audio
    argument. *)
Lemma other_choice_assembles_without_audio
    (s : Settings) (p : InputPath) (au subs : list Track) (d : Decision) :
  au <> [] ->
  pyval_eqb (choice d) "1" = false ->
  pyval_eqb (choice d) "2" = false ->
  audio_stage s au d (initial_config s p) = Ok (initial_config s p)
  /\ assemble s p au subs d = video_stages subs d (initial_config s p)
  /\ forall a, assemble s p au subs d = Ok a -> audio_settings (config a) = [].
Proof.
  intros Hau N1 N2.
  assert (A : audio_stage s au d (initial_config s p)
              = Ok (initial_config s p)).
  { unfold audio_stage, apply_audio. destruct au as [|x au]; [congruence|].
    now rewrite N1, N2. }
  split; [exact A|]. split.
  - unfold assemble. now rewrite A.
  - intros a H. now rewrite (assemble_audio _ _ _ _ _ _ _ A H).
Qed.

(** ** Subtitle answers that select nothing *)

Lemma find_id_none (subs : list Track) (k : Z) :
  ~ In k (map id subs) ->
  find (fun track => Z.eqb (id track) k) subs = None.
Proof.
  induction subs as [|x subs IH]; [reflexivity|]. cbn. intros H.
  destruct (Z.eqb_spec (id x) k) as [E|N]; [tauto|]. apply IH. tauto.
Qed.

(** X6. A subtitle answer that [int] rejects, or that reads as a number which
    is not the id of a subtitle track, burns nothing in: the configuration
    is unchanged, no track is selected and reencoding is not forced. *)
Theorem unknown_subtitle_is_ignored
    (subs : list Track) (c : string) (cfg : CmdConfig) :
  (forall k, Py.int c = Some k -> ~ In k (map id subs)) ->
  apply_subtitle subs c cfg = (cfg, None, false).
Proof.
  intros H. unfold apply_subtitle, select_subtitle.
  destruct (Py.truthy c); [|reflexivity].
  destruct (Py.int c) as [k|]; [|reflexivity].
  now rewrite (find_id_none subs k (H k eq_refl)).
Qed.

Lemma unknown_subtitle_is_ignored_witness :
  apply_subtitle Sample.subs "1"
    (initial_config ENCODE_SETTINGS Sample.movie)
  = (initial_config ENCODE_SETTINGS Sample.movie, None, false).
Proof.
  apply (unknown_subtitle_is_ignored Sample.subs "1"
           (initial_config ENCODE_SETTINGS Sample.movie)).
  intros k E. injection E as <-. cbn. intros [H|[]]. discriminate H.
Defined.

(** ** Reencoding without burn-in or merge *)

(** X7. Reencoding with a target height [h], no merge fragment and no
    subtitle selected: the graph is the single fragment
    [0:v]scale=-1:h[vout], and the video arguments are -map [vout], then
    -c:v with the codec of the preset, then its parameters as -key value in
    the order of the preset. *)
Theorem scale_alone
    (s : Settings) (p : InputPath) (au subs : list Track) (d : Decision)
    (cfg1 : CmdConfig) (pr : Preset) (h : Z) :
  audio_stage s au d (initial_config s p) = Ok cfg1 ->
  filter_complex cfg1 = None ->
  select_subtitle subs (sub_choice d) = None ->
  reencode d = true ->
  preset d = Some pr ->
  Py.isdigit (res_choice d) = true ->
  Py.int (res_choice d) = Some h ->
  exists a,
    assemble s p au subs d = Ok a
    /\ filter_complex (config a) = Some ("[0:v]scale=-1:" ++ Py.str h ++ "[vout]")
    /\ video_settings (config a)
       = (["-map"; "[vout]"; "-c:v"; codec pr]
          ++ flat_map
               (fun kv => [("-" ++ fst kv)%string; str_scalar (snd kv)])
               (params pr))%list
    /\ audio_settings (config a) = audio_settings cfg1.
Proof.
  intros A F N R P D I.
  destruct (audio_stage_frame _ _ _ _ _ A) as (_ & _ & Ev).
  change (video_settings (initial_config s p)) with ["-map"; "0:v"] in Ev.
  unfold assemble. rewrite A. cbn [and_then].
  unfold video_stages. rewrite (subtitle_stage_unselected _ _ _ N).
  cbn [fst snd]. rewrite R, P, apply_preset_some. cbn [and_then].
  unfold apply_scale. rewrite D, I.
  assert (T : Py.truthy (res_choice d) = true).
  { unfold Py.isdigit in D. now apply andb_true_iff in D. }
  rewrite T. cbn [andb].
  unfold current_filter. cbn [filter_complex set_video]. rewrite F.
  cbn [and_then]. eexists. split; [reflexivity|].
  cbn [config apply_copy negb filter_complex video_settings audio_settings
       set_video set_filter].
  rewrite Ev. repeat split.
Qed.

Lemma scale_alone_witness :
  exists a,
    assemble ENCODE_SETTINGS Sample.movie Sample.audio Sample.subs
      (Sample.decide "1" "-" "" true "0480") = Ok a
    /\ filter_complex (config a) = Some "[0:v]scale=-1:480[vout]"
    /\ video_settings (config a)
       = ["-map"; "[vout]"; "-c:v"; "libx264"; "-crf"; "24";
          "-preset"; "veryslow"]
    /\ audio_settings (config a) = ["-an"].
Proof.
  apply (scale_alone ENCODE_SETTINGS Sample.movie Sample.audio Sample.subs
           (Sample.decide "1" "-" "" true "0480")
           (set_audio ["-an"] (initial_config ENCODE_SETTINGS Sample.movie))
           DEFAULT_PRESET 480).
  - reflexivity.
  - reflexivity.
  - reflexivity.
  - reflexivity.
  - reflexivity.
  - reflexivity.
  - reflexivity.
Defined.

(** X8. Reencoding with a height answer that is not a digit string (empty,
    or any other text) and no subtitle selected: nothing is scaled, the
    graph is the one the audio stage left, and the video arguments are
    -map 0:v, then -c:v with the codec of the preset, then its parameters. *)
Theorem reencode_keeps_resolution
    (s : Settings) (p : InputPath) (au subs : list Track) (d : Decision)
    (cfg1 : CmdConfig) (pr : Preset) :
  audio_stage s au d (initial_config s p) = Ok cfg1 ->
  select_subtitle subs (sub_choice d) = None ->
  reencode d = true ->
  preset d = Some pr ->
  Py.isdigit (res_choice d) = false ->
  exists a,
    assemble s p au subs d = Ok a
    /\ filter_complex (config a) = filter_complex cfg1
    /\ video_settings (config a)
       = (["-map"; "0:v"; "-c:v"; codec pr]
          ++ flat_map
               (fun kv => [("-" ++ fst kv)%string; str_scalar (snd kv)])
               (params pr))%list
    /\ audio_settings (config a) = audio_settings cfg1.
Proof.
  intros A N R P D.
  destruct (audio_stage_frame _ _ _ _ _ A) as (_ & _ & Ev).
  change (video_settings (initial_config s p)) with ["-map"; "0:v"] in Ev.
  unfold assemble. rewrite A. cbn [and_then].
  unfold video_stages. rewrite (subtitle_stage_unselected _ _ _ N).
  cbn [fst snd]. rewrite R, P, apply_preset_some. cbn [and_then].
  rewrite (apply_scale_skip _ _ D). cbn [and_then].
  eexists. split; [reflexivity|].
  cbn [config apply_copy negb filter_complex video_settings audio_settings
       set_video set_filter].
  rewrite Ev. repeat split.
Qed.

Lemma reencode_keeps_resolution_witness :
  exists a,
    assemble ENCODE_SETTINGS Sample.movie Sample.audio Sample.subs
      (Sample.decide "1" "" "" true "-720") = Ok a
    /\ filter_complex (config a) = None
    /\ video_settings (config a)
       = ["-map"; "0:v"; "-c:v"; "libx264"; "-crf"; "24";
          "-preset"; "veryslow"]
    /\ audio_settings (config a) = ["-map"; "0:a"; "-c:a"; "copy"].
Proof.
  apply (reencode_keeps_resolution ENCODE_SETTINGS Sample.movie Sample.audio
           Sample.subs (Sample.decide "1" "" "" true "-720")
           (set_audio ["-map"; "0:a"; "-c:a"; "copy"]
              (initial_config ENCODE_SETTINGS Sample.movie))
           DEFAULT_PRESET).
  - reflexivity.
  - reflexivity.
  - reflexivity.
  - reflexivity.
  - reflexivity.
Defined.

(** X9. A height answer that [isdigit] accepts and [int] rejects (a
    superscript digit) makes the building of the command raise [ValueError]
    whenever the video is reencoded, so no command results. *)
Theorem digit_that_is_no_number_raises
    (s : Settings) (p : InputPath) (au subs : list Track) (d : Decision)
    (cfg1 : CmdConfig) (pr : Preset) :
  audio_stage s au d (initial_config s p) = Ok cfg1 ->
  snd (subtitle_stage subs d cfg1) = true \/ reencode d = true ->
  preset d = Some pr ->
  Py.isdigit (res_choice d) = true ->
  Py.int (res_choice d) = None ->
  assemble s p au subs d = Raise ValueError.
Proof.
  intros A R P D I.
  unfold assemble. rewrite A. cbn [and_then]. unfold video_stages.
  assert (S : (if snd (subtitle_stage subs d cfg1) then true else reencode d)
              = true).
  { destruct R as [-> | ->]; [reflexivity|].
    now destruct (snd (subtitle_stage subs d cfg1)). }
  cbv zeta. rewrite S, P, apply_preset_some. cbn [and_then].
  unfold apply_scale. rewrite D, I.
  assert (T : Py.truthy (res_choice d) = true).
  { unfold Py.isdigit in D. now apply andb_true_iff in D. }
  now rewrite T.
Qed.

Lemma digit_that_is_no_number_raises_witness :
  assemble ENCODE_SETTINGS Sample.movie Sample.audio Sample.subs
    (Sample.decide "1" "" "" true Batch.superscript_two)
  = Raise ValueError.
Proof.
  apply (digit_that_is_no_number_raises ENCODE_SETTINGS Sample.movie
           Sample.audio Sample.subs
           (Sample.decide "1" "" "" true Batch.superscript_two)
           (set_audio ["-map"; "0:a"; "-c:a"; "copy"]
              (initial_config ENCODE_SETTINGS Sample.movie))
           DEFAULT_PRESET).
  - reflexivity.
  - right. reflexivity.
  - reflexivity.
  - reflexivity.
  - reflexivity.
Defined.

(** ** Replaying the cache *)

Lemma active_cache_in_use (w : World) (c : CachedSettings) :
  cached_settings w = Some c -> use_cache c = true ->
  active_cache w = (Ok (Some c), w).
Proof. unfold active_cache. now intros -> ->. Qed.

Lemma ask_audio_replay (i : nat) (w : World) (c : CachedSettings) :
  cached_settings w = Some c -> use_cache c = true ->
  ask_audio i w = (Ok (audio_choice c, Some (audio_tracks c)), w).
Proof.
  intros Hc Hu. unfold ask_audio, bind.
  now rewrite (active_cache_in_use w c Hc Hu).
Qed.

Lemma ask_subtitle_replay (i : nat) (w : World) (c : CachedSettings) :
  cached_settings w = Some c -> use_cache c = true ->
  ask_subtitle i w = (Ok (str_or_empty (subtitle_track c)), w).
Proof.
  intros Hc Hu. unfold ask_subtitle, bind.
  now rewrite (active_cache_in_use w c Hc Hu).
Qed.

Lemma ask_reencode_replay (i : nat) (w : World) (c : CachedSettings) :
  cached_settings w = Some c -> use_cache c = true ->
  ask_reencode i w = (Ok (should_reencode c), w).
Proof.
  intros Hc Hu. unfold ask_reencode, bind.
  now rewrite (active_cache_in_use w c Hc Hu).
Qed.

Lemma ask_resolution_replay (i : nat) (w : World) (c : CachedSettings) :
  cached_settings w = Some c -> use_cache c = true ->
  ask_resolution i w = (Ok (str_or_empty (target_height c)), w).
Proof.
  intros Hc Hu. unfold ask_resolution, bind.
  now rewrite (active_cache_in_use w c Hc Hu).
Qed.

Lemma get_encoding_preset_replay (all : list Preset) (i : nat) (w : World)
    (c : CachedSettings) :
  cached_settings w = Some c -> use_cache c = true ->
  get_encoding_preset all i w = (Ok (encoding_preset c), w).
Proof.
  intros Hc Hu. unfold get_encoding_preset, bind.
  now rewrite (active_cache_in_use w c Hc Hu).
Qed.

(** With the cache in use, [encode_video] reads only the cache: the
    configuration is [assemble] of the cached values, whatever the input
    holds, and the world is left as it was. *)
Lemma configure_replay (s : Settings) (p : InputPath)
    (info : option (list Stream)) (i : nat) (w : World) (c : CachedSettings) :
  cached_settings w = Some c -> use_cache c = true ->
  configure s p info i w
  = (and_then
       (assemble s p (get_audio_tracks info) (get_subtitle_tracks info)
          {| choice := audio_choice c;
             track_list := Some (audio_tracks c);
             sub_choice := str_or_empty (subtitle_track c);
             reencode := should_reencode c;
             preset := encoding_preset c;
             res_choice := str_or_empty (target_height c) |})
       (fun a => Ok (config a)),
     w).
Proof.
  intros Hc Hu. unfold configure, assemble, audio_stage.
  cbn [choice track_list]. unfold bind at 1.
  assert (A : (match get_audio_tracks info with
               | [] => ret (set_audio ["-an"] (initial_config s p))
               | _ :: _ =>
                   cl <- ask_audio i ;;
                   lift (apply_audio (merged_audio_codec s) (fst cl) (snd cl)
                           (initial_config s p))
               end) w
              = (match get_audio_tracks info with
                 | [] => Ok (set_audio ["-an"] (initial_config s p))
                 | _ :: _ =>
                     apply_audio (merged_audio_codec s) (audio_choice c)
                       (Some (audio_tracks c)) (initial_config s p)
                 end, w)).
  { destruct (get_audio_tracks info); [reflexivity|].
    unfold bind. now rewrite (ask_audio_replay i w c Hc Hu). }
  cbv zeta. rewrite A.
  destruct (match get_audio_tracks info with
            | [] => Ok (set_audio ["-an"] (initial_config s p))
            | _ :: _ => _
            end) as [cfg1|e]; [|reflexivity].
  cbn [and_then]. unfold video_stages, subtitle_stage.
  cbn [sub_choice reencode preset res_choice]. unfold bind at 1.
  assert (S : (match get_subtitle_tracks info with
               | [] => ret (cfg1, None, false)
               | _ :: _ =>
                   sub_choice <- ask_subtitle i ;;
                   ret (apply_subtitle (get_subtitle_tracks info) sub_choice
                          cfg1)
               end) w
              = (Ok match get_subtitle_tracks info with
                    | [] => (cfg1, None, false)
                    | _ :: _ =>
                        apply_subtitle (get_subtitle_tracks info)
                          (str_or_empty (subtitle_track c)) cfg1
                    end, w)).
  { destruct (get_subtitle_tracks info); [reflexivity|].
    unfold bind. now rewrite (ask_subtitle_replay i w c Hc Hu). }
  rewrite S.
  set (sub := match get_subtitle_tracks info with
              | [] => (cfg1, None, false)
              | _ :: _ => _
              end).
  unfold bind at 1.
  assert (R : (if snd sub then ret true else ask_reencode i) w
              = (Ok (if snd sub then true else should_reencode c), w)).
  { destruct (snd sub); [reflexivity|].
    apply (ask_reencode_replay i w c Hc Hu). }
  rewrite R.
  destruct (if snd sub then true else should_reencode c).
  - unfold bind. rewrite (get_encoding_preset_replay _ i w c Hc Hu).
    unfold lift at 1.
    destruct (apply_preset (encoding_preset c) (fst (fst sub))) as [cfg|e];
      [|reflexivity].
    rewrite (ask_resolution_replay i w c Hc Hu). cbn [and_then]. unfold lift.
    now destruct (apply_scale _ cfg).
  - reflexivity.
Qed.

Lemma run_after_configure (s : Settings)
    (run_ffmpeg : list string -> proc_result) (p : InputPath)
    (info : option (list Stream)) (i : nat) (w w1 : World)
    (r : result CmdConfig) :
  configure s p info i w = (r, w1) ->
  encode_video s run_ffmpeg p info i w
  = match r with
    | Ok cfg =>
        (match run_ffmpeg (build_cmd cfg) with
         | NotFound => false
         | Exited returncode _ => (returncode =? 0)%Z
         end,
         {| stdin := stdin w1; cached_settings := cached_settings w1;
            invoked := (invoked w1 ++ [build_cmd cfg])%list |})
    | Raise _ => (false, w1)
    end.
Proof.
  intros C. unfold encode_video, bind. rewrite C.
  destruct r as [cfg|e]; [|reflexivity].
  unfold run_encoder. now destruct (run_ffmpeg (build_cmd cfg)).
Qed.

Lemma cached_run
    (s : Settings) (run_ffmpeg : list string -> proc_result) (p : InputPath)
    (info : option (list Stream)) (i : nat) (w : World) (c : CachedSettings) :
  cached_settings w = Some c ->
  use_cache c = true ->
  encode_video s run_ffmpeg p info i w
  = match assemble s p (get_audio_tracks info) (get_subtitle_tracks info)
            (cached_decision c) with
    | Ok a =>
        (match run_ffmpeg (build_cmd (config a)) with
         | NotFound => false
         | Exited returncode _ => (returncode =? 0)%Z
         end,
         {| stdin := stdin w; cached_settings := cached_settings w;
            invoked := (invoked w ++ [build_cmd (config a)])%list |})
    | Raise _ => (false, w)
    end.
Proof.
  intros Hc Hu.
  rewrite (run_after_configure _ _ _ _ _ _ _ _
             (configure_replay s p info i w c Hc Hu)).
  unfold cached_decision. now destruct (assemble _ _ _ _ _).
Qed.

(** X10. With the cache in use [encode_video] asks nothing and stores
    nothing: it builds the command from the cached values alone, runs it
    once, and returns whether ffmpeg exited with 0; when the cached values do
    not yield a command it returns [False] and the world is untouched. *)
Theorem cached_run_reads_only_the_cache
    (s : Settings) (run_ffmpeg : list string -> proc_result) (p : InputPath)
    (info : option (list Stream)) (i : nat) (w : World) (c : CachedSettings) :
  cached_settings w = Some c ->
  use_cache c = true ->
  encode_video s run_ffmpeg p info i w
  = match assemble s p (get_audio_tracks info) (get_subtitle_tracks info)
            (cached_decision c) with
    | Ok a =>
        (match run_ffmpeg (build_cmd (config a)) with
         | NotFound => false
         | Exited returncode _ => (returncode =? 0)%Z
         end,
         {| stdin := stdin w; cached_settings := cached_settings w;
            invoked := (invoked w ++ [build_cmd (config a)])%list |})
    | Raise _ => (false, w)
    end.
Proof.
  intros Hc Hu.
  assert (C := configure_replay s p info i w c Hc Hu).
  rewrite (run_after_configure s run_ffmpeg p info i w w _ C).
  unfold cached_decision.
  destruct (assemble s p (get_audio_tracks info) (get_subtitle_tracks info) _)
    as [a|e]; reflexivity.
Qed.

Lemma cached_run_reads_only_the_cache_witness :
  encode_video ENCODE_SETTINGS Sample.ffmpeg_ok Sample.movie Sample.probe 3
    {| stdin := ["unread"];
       cached_settings := Some (with_use_cache true fresh_cache);
       invoked := [] |}
  = (true,
     {| stdin := ["unread"];
        cached_settings := Some (with_use_cache true fresh_cache);
        invoked := [["ffmpeg"; "-i"; "C:\v\a.mkv"; "-map"; "0:v"; "-c:v";
                     "copy"; "C:\v\a_done.mp4"]] |}).
Proof.
  apply (cached_run_reads_only_the_cache ENCODE_SETTINGS Sample.ffmpeg_ok
           Sample.movie Sample.probe 3
           {| stdin := ["unread"];
              cached_settings := Some (with_use_cache true fresh_cache);
              invoked := [] |}
           (with_use_cache true fresh_cache)).
  - reflexivity.
  - reflexivity.
Defined.

(** X11. A cache in use that names a subtitle track of the file but holds
    no preset (the first file had no such track and was copied) makes
    [encode_video] fail on that file: burn-in forces reencoding, the preset
    read from the cache is [None], and nothing is run. *)
Theorem cached_burn_in_without_preset_fails
    (s : Settings) (run_ffmpeg : list string -> proc_result) (p : InputPath)
    (info : option (list Stream)) (i : nat) (w : World) (c : CachedSettings)
    (k : Z) :
  cached_settings w = Some c ->
  use_cache c = true ->
  subtitle_track c = Some k ->
  In k (map id (get_subtitle_tracks info)) ->
  encoding_preset c = None ->
  encode_video s run_ffmpeg p info i w = (false, w).
Proof.
  intros Hc Hu Hk Hin Hp.
  rewrite (cached_run s run_ffmpeg p info i w c Hc Hu).
  unfold assemble.
  destruct (audio_stage _ _ _ _) as [cfg1|e]; [|reflexivity].
  cbn [and_then]. unfold video_stages, subtitle_stage.
  destruct (select_subtitle_existing (get_subtitle_tracks info)
              (Py.str k) k (int_str k) Hin) as (t & S & _).
  destruct (get_subtitle_tracks info) as [|x subs] eqn:E; [contradiction|].
  unfold cached_decision. cbn [sub_choice preset reencode res_choice].
  rewrite Hk, Hp. cbn [str_or_empty].
  rewrite (apply_subtitle_selected _ _ _ _ _ S). reflexivity.
Qed.

Lemma cached_burn_in_without_preset_fails_witness :
  encode_video ENCODE_SETTINGS Sample.ffmpeg_ok Sample.movie
    Batch.two_subtitles 1
    {| stdin := []; cached_settings := Some Batch.copied_first;
       invoked := [] |}
  = (false,
     {| stdin := []; cached_settings := Some Batch.copied_first;
        invoked := [] |}).
Proof.
  apply (cached_burn_in_without_preset_fails ENCODE_SETTINGS Sample.ffmpeg_ok
           Sample.movie Batch.two_subtitles 1
           {| stdin := []; cached_settings := Some Batch.copied_first;
              invoked := [] |}
           Batch.copied_first 1).
  - reflexivity.
  - reflexivity.
  - reflexivity.
  - right. left. reflexivity.
  - reflexivity.
Defined.

(** ** What the first file stores *)

Lemma ask_audio_first (w w1 : World) (c : CachedSettings)
    (r : pyval * option pyval) :
  cached_settings w = Some c -> use_cache c = false ->
  ask_audio 0 w = (Ok r, w1) ->
  exists ch tl a b,
    r = (PyStr ch, Some (PyStr tl))
    /\ cached_settings w1
       = Some (with_audio_tracks (PyStr tl) (with_audio_choice (PyStr ch) c))
    /\ stdin w = a :: b :: stdin w1.
Proof.
  intros Hc Hu. unfold ask_audio, bind.
  rewrite (active_cache_collecting w c Hc Hu). unfold read_input.
  destruct (stdin w) as [|a l]; [discriminate|].
  unfold store_first, store. cbn [cached_settings stdin]. rewrite Hc.
  set (ch := Py.or_default (Py.strip a) "1").
  destruct (String.eqb ch "1"); [|destruct (String.eqb ch "2")].
  - cbn [stdin]. destruct l as [|b l]; [discriminate|].
    unfold ret. cbn [cached_settings]. intros H. injection H as <- <-.
    exists ch, (Py.strip b), a, b. auto.
  - cbn [stdin]. destruct l as [|b l]; [discriminate|].
    unfold ret. cbn [cached_settings]. intros H. injection H as <- <-.
    exists ch, (Py.strip b), a, b. auto.
  - unfold ret, raise. discriminate.
Qed.

Lemma ask_subtitle_first (w w1 : World) (c : CachedSettings) (sc : string) :
  cached_settings w = Some c -> use_cache c = false ->
  ask_subtitle 0 w = (Ok sc, w1) ->
  exists a v,
    stdin w = a :: stdin w1
    /\ sc = Py.strip a
    /\ int_if_digit sc = Ok v
    /\ cached_settings w1 = Some (with_subtitle_track v c).
Proof.
  intros Hc Hu. unfold ask_subtitle, bind.
  rewrite (active_cache_collecting w c Hc Hu). unfold read_input.
  destruct (stdin w) as [|a l]; [discriminate|].
  unfold lift, store. cbn [cached_settings stdin].
  destruct (int_if_digit (Py.strip a)) as [v|e] eqn:E; [|discriminate].
  rewrite Hc. unfold ret. intros H. injection H as <- <-.
  exists a, v. auto.
Qed.

Lemma ask_resolution_first (w w1 : World) (c : CachedSettings) (rc : string) :
  cached_settings w = Some c -> use_cache c = false ->
  ask_resolution 0 w = (Ok rc, w1) ->
  exists v,
    int_if_digit rc = Ok v
    /\ cached_settings w1 = Some (with_target_height v c).
Proof.
  intros Hc Hu. unfold ask_resolution, bind.
  rewrite (active_cache_collecting w c Hc Hu). unfold read_input.
  destruct (stdin w) as [|a l]; [discriminate|].
  unfold lift, store. cbn [cached_settings stdin].
  destruct (int_if_digit (Py.strip a)) as [v|e] eqn:E; [|discriminate].
  rewrite Hc. unfold ret. intros H. injection H as <- <-.
  exists v. auto.
Qed.

Lemma ask_reencode_first (w w1 : World) (c : CachedSettings) (b : bool) :
  cached_settings w = Some c -> use_cache c = false ->
  ask_reencode 0 w = (Ok b, w1) ->
  cached_settings w1 = Some (with_should_reencode b c).
Proof.
  intros Hc Hu H. destruct (stdin w) as [|a l] eqn:E.
  - unfold ask_reencode, bind in H.
    rewrite (active_cache_collecting w c Hc Hu) in H.
    unfold read_input in H. rewrite E in H. discriminate.
  - rewrite (ask_reencode_collecting 0 w c a l Hc Hu E) in H.
    now injection H as <- <-.
Qed.

Lemma get_encoding_preset_first (all : list Preset) (w w1 : World)
    (c : CachedSettings) (pr : option Preset) :
  cached_settings w = Some c -> use_cache c = false ->
  get_encoding_preset all 0 w = (Ok pr, w1) ->
  exists p0, pr = Some p0
             /\ cached_settings w1 = Some (with_encoding_preset (Some p0) c).
Proof.
  intros Hc Hu. unfold get_encoding_preset, bind.
  rewrite (active_cache_collecting w c Hc Hu).
  unfold store_first, store, ret.
  destruct all as [|p0 [|p1 l]].
  - destruct (prompt_preset [] (stdin w)) as [[a|e] rest]; [|discriminate].
    cbn [cached_settings]. rewrite Hc. intros H. injection H as <- <-. eauto.
  - rewrite Hc. intros H. injection H as <- <-. eauto.
  - destruct (prompt_preset _ (stdin w)) as [[a|e] rest]; [|discriminate].
    cbn [cached_settings]. rewrite Hc. intros H. injection H as <- <-. eauto.
Qed.

(** ** What is stored reads back as what was answered *)

Lemma digits_value_nonneg (s : string) (acc : Z) (b : bool) (h : Z) :
  (0 <= acc)%Z -> Py.digits_value acc b s = Some h -> (0 <= h)%Z.
Proof.
  revert acc b; induction s as [|c s IH]; intros acc b Ha;
    cbn [Py.digits_value].
  - destruct b; [|discriminate]. intros H. injection H as <-. exact Ha.
  - destruct (Py.is_decimal c).
    + apply IH. lia.
    + destruct (Ascii.eqb c "_" && b); [now apply IH | discriminate].
Qed.

Lemma digit_char_not_space (c : ascii) :
  Py.is_digit_char c = true -> negb (Py.is_space c) = true.
Proof.
  destruct c as [[] [] [] [] [] [] [] []]; vm_compute; congruence.
Qed.

Lemma isdigit_strip (s : string) :
  Py.isdigit s = true -> Py.strip s = s.
Proof.
  unfold Py.isdigit. intros H. apply andb_true_iff in H as [_ H].
  apply strip_id, (all_chars_impl Py.is_digit_char);
    [apply digit_char_not_space | exact H].
Qed.

Lemma isdigit_int_nonneg (s : string) (h : Z) :
  Py.isdigit s = true -> Py.int s = Some h -> (0 <= h)%Z.
Proof.
  intros D. unfold Py.int. rewrite (isdigit_strip s D).
  unfold Py.isdigit in D. apply andb_true_iff in D as [_ D].
  destruct s as [|c s]; [discriminate|].
  cbn [Py.all_chars] in D. apply andb_true_iff in D as [Hc _].
  destruct c as [[] [] [] [] [] [] [] []]; vm_compute in Hc;
    try discriminate Hc; cbv iota;
    apply digits_value_nonneg; lia.
Qed.

(** The subtitle answer and what the cache gives back for it select the same
    track, provided the answer is plain. *)
Lemma subtitle_reads_back (subs : list Track) (sc : string) (v : option Z) :
  Py.isdigit sc = true \/ Py.int sc = None ->
  int_if_digit sc = Ok v ->
  select_subtitle subs (str_or_empty v) = select_subtitle subs sc.
Proof.
  unfold int_if_digit. intros P H.
  destruct (Py.isdigit sc) eqn:D.
  - destruct (Py.int sc) as [n|] eqn:I; [|discriminate].
    injection H as <-. cbn [str_or_empty]. unfold select_subtitle.
    rewrite (int_str n), I.
    assert (T1 : Py.truthy (Py.str n) = true).
    { destruct (Py.str n) eqn:E; [|reflexivity].
      assert (X := int_str n). rewrite E in X. discriminate. }
    assert (T2 : Py.truthy sc = true).
    { unfold Py.isdigit in D. now apply andb_true_iff in D. }
    now rewrite T1, T2.
  - injection H as <-. destruct P as [P|P]; [discriminate|].
    unfold select_subtitle. cbn [str_or_empty Py.truthy]. rewrite P.
    now destruct (Py.truthy sc).
Qed.

(** The height answer and what the cache gives back for it scale alike. *)
Lemma height_reads_back (rc : string) (v : option Z) (cfg : CmdConfig) :
  int_if_digit rc = Ok v ->
  apply_scale (str_or_empty v) cfg = apply_scale rc cfg.
Proof.
  unfold int_if_digit. intros H.
  destruct (Py.isdigit rc) eqn:D.
  - destruct (Py.int rc) as [h|] eqn:I; [|discriminate].
    injection H as <-. cbn [str_or_empty].
    assert (Hh := isdigit_int_nonneg rc h D I).
    assert (D' := isdigit_str h Hh).
    destruct (current_filter cfg) as [f|] eqn:C.
    + now rewrite (apply_scale_on_graph _ h f cfg D' (int_str h) C),
        (apply_scale_on_graph _ h f cfg D I C).
    + unfold apply_scale. rewrite D, I, D', (int_str h), C.
      assert (T : Py.truthy rc = true).
      { unfold Py.isdigit in D. now apply andb_true_iff in D. }
      assert (T' : Py.truthy (Py.str h) = true).
      { unfold Py.isdigit in D'. now apply andb_true_iff in D'. }
      now rewrite T, T'.
  - injection H as <-. cbn [str_or_empty].
    now rewrite (apply_scale_skip rc cfg D).
Qed.

Lemma ret_inv {A} (x a : A) (w w' : World) :
  ret x w = (Ok a, w') -> x = a /\ w = w'.
Proof. unfold ret. intros H. now injection H. Qed.

Lemma lift_inv {A} (r : result A) (a : A) (w w' : World) :
  lift r w = (Ok a, w') -> r = Ok a /\ w = w'.
Proof. unfold lift. intros H. now injection H. Qed.

(** After the first file went through with plain answers, the values in the
    cache rebuild its configuration. *)
Lemma first_run_cache (s : Settings) (p : InputPath)
    (info : option (list Stream)) (w w1 : World) (cfg : CmdConfig) :
  collecting w ->
  Forall plain_answer (stdin w) ->
  configure s p info 0 w = (Ok cfg, w1) ->
  exists c1 a,
    cached_settings w1 = Some c1
    /\ use_cache c1 = false
    /\ assemble s p (get_audio_tracks info) (get_subtitle_tracks info)
         (cached_decision c1) = Ok a
    /\ config a = cfg.
Proof.
  intros (c & Hc & Hu) HF H. unfold configure in H. cbv zeta in H.
  apply bind_ok in H as (cfg1 & wa & Ha & H).
  apply bind_ok in H as (sub & ws & Hs & H).
  apply bind_ok in H as (should & wr & Hr & H).
  apply bind_ok in H as (cfg3 & wv & Hv & H).
  apply ret_inv in H as [<- <-].
  (* audio *)
  assert (A : exists ca,
             cached_settings wa = Some ca /\ use_cache ca = false
             /\ Forall plain_answer (stdin wa)
             /\ match get_audio_tracks info with
                | [] => Ok (set_audio ["-an"] (initial_config s p))
                | _ :: _ =>
                    apply_audio (merged_audio_codec s) (audio_choice ca)
                      (Some (audio_tracks ca)) (initial_config s p)
                end = Ok cfg1).
  { destruct (get_audio_tracks info).
    - apply ret_inv in Ha as [<- <-]. exists c. repeat split; auto.
    - apply bind_ok in Ha as (cl & w0 & Hq & Ha).
      apply lift_inv in Ha as [Ha <-].
      destruct (ask_audio_first w w0 c cl Hc Hu Hq)
        as (ch & tl & x & y & -> & Hc0 & Hin).
      eexists. split; [exact Hc0|]. split; [exact Hu|]. split.
      + rewrite Hin in HF. now inversion HF as [|? ? _ HF']; inversion HF'.
      + exact Ha. }
  destruct A as (ca & Hca & Hua & HFa & AE).
  (* subtitle *)
  assert (S : exists cs,
             cached_settings ws = Some cs /\ use_cache cs = false
             /\ audio_choice cs = audio_choice ca
             /\ audio_tracks cs = audio_tracks ca
             /\ match get_subtitle_tracks info with
                | [] => (cfg1, None, false)
                | _ :: _ =>
                    apply_subtitle (get_subtitle_tracks info)
                      (str_or_empty (subtitle_track cs)) cfg1
                end = sub).
  { destruct (get_subtitle_tracks info) as [|t0 tl0] eqn:E.
    - apply ret_inv in Hs as [<- <-]. exists ca. repeat split; auto.
    - apply bind_ok in Hs as (sc & w0 & Hq & Hs).
      apply ret_inv in Hs as [<- <-].
      destruct (ask_subtitle_first wa w0 ca sc Hca Hua Hq)
        as (x & v & Hin & -> & Hv0 & Hc0).
      eexists. split; [exact Hc0|]. split; [exact Hua|].
      do 2 (split; [reflexivity|]).
      cbn [subtitle_track with_subtitle_track str_or_empty].
      unfold apply_subtitle.
      rewrite (subtitle_reads_back (t0 :: tl0) (Py.strip x) v); [reflexivity| |exact Hv0].
      rewrite Hin in HFa. now inversion HFa. }
  destruct S as (cs & Hcs & Hus & Ea1 & Ea2 & SE).
  (* reencode *)
  assert (R : exists cr,
             cached_settings wr = Some cr /\ use_cache cr = false
             /\ audio_choice cr = audio_choice ca
             /\ audio_tracks cr = audio_tracks ca
             /\ subtitle_track cr = subtitle_track cs
             /\ (if snd sub then true else should_reencode cr) = should).
  { destruct (snd sub).
    - apply ret_inv in Hr as [<- <-]. exists cs. repeat split; auto.
    - assert (Hc0 := ask_reencode_first ws wr cs should Hcs Hus Hr).
      eexists. split; [exact Hc0|]. split; [exact Hus|]. repeat split; auto. }
  destruct R as (cr & Hcr & Hur & Eb1 & Eb2 & Eb3 & RE).
  (* preset and height *)
  assert (V : exists c1,
             cached_settings wv = Some c1 /\ use_cache c1 = false
             /\ audio_choice c1 = audio_choice ca
             /\ audio_tracks c1 = audio_tracks ca
             /\ subtitle_track c1 = subtitle_track cs
             /\ should_reencode c1 = should_reencode cr
             /\ (if should then
                   and_then (apply_preset (encoding_preset c1) (fst (fst sub)))
                     (fun x => apply_scale (str_or_empty (target_height c1)) x)
                 else Ok (fst (fst sub))) = Ok cfg3).
  { destruct should.
    - apply bind_ok in Hv as (pr & w5 & Hq & Hv).
      apply bind_ok in Hv as (x & w6 & Hp & Hv).
      apply lift_inv in Hp as [Hp <-].
      apply bind_ok in Hv as (rc & w7 & Hq2 & Hv).
      apply lift_inv in Hv as [Hv <-].
      destruct (get_encoding_preset_first _ wr w5 cr pr Hcr Hur Hq)
        as (p0 & -> & Hc5).
      destruct (ask_resolution_first w5 w7 _ rc Hc5 Hur Hq2)
        as (v & Hv0 & Hc7).
      eexists. split; [exact Hc7|]. split; [exact Hur|].
      do 4 (split; [assumption || reflexivity|]).
      cbn [encoding_preset target_height with_target_height
           with_encoding_preset].
      rewrite Hp. cbn [and_then].
      now rewrite (height_reads_back rc v x Hv0).
    - apply ret_inv in Hv as [<- <-]. exists cr. repeat split; auto. }
  destruct V as (c1 & Hc1 & Hu1 & Ec1 & Ec2 & Ec3 & Ec4 & VE).
  exists c1. eexists. split; [exact Hc1|]. split; [exact Hu1|]. split.
  - unfold assemble, audio_stage, cached_decision.
    cbn [choice track_list]. rewrite Ec1, Ec2, AE. cbn [and_then].
    unfold video_stages, subtitle_stage.
    cbn [sub_choice reencode preset res_choice].
    rewrite Ec3, SE, Ec4, RE, VE. cbn [and_then]. reflexivity.
  - reflexivity.
Qed.

(** X12. Same settings for the remaining files: when the first file
    (index 0, cache not in use) was configured from plain answers, a later
    call on a file with the same track lists and the cache switched on
    builds the same configuration, reads no input and stores nothing. *)
Theorem cached_settings_rebuild_the_command
    (s : Settings) (p : InputPath) (info : option (list Stream))
    (w w1 : World) (cfg : CmdConfig) (i : nat) :
  collecting w ->
  Forall plain_answer (stdin w) ->
  configure s p info 0 w = (Ok cfg, w1) ->
  configure s p info i (replayed w1) = (Ok cfg, replayed w1).
Proof.
  intros Hw HF H.
  destruct (first_run_cache s p info w w1 cfg Hw HF H)
    as (c1 & a & Hc1 & Hu1 & Ha & <-).
  rewrite (configure_replay s p info i (replayed w1) (with_use_cache true c1)).
  - change (assemble s p (get_audio_tracks info) (get_subtitle_tracks info)
              (cached_decision c1))
      with (assemble s p (get_audio_tracks info) (get_subtitle_tracks info)
              {| choice := audio_choice (with_use_cache true c1);
                 track_list := Some (audio_tracks (with_use_cache true c1));
                 sub_choice :=
                   str_or_empty (subtitle_track (with_use_cache true c1));
                 reencode := should_reencode (with_use_cache true c1);
                 preset := encoding_preset (with_use_cache true c1);
                 res_choice :=
                   str_or_empty (target_height (with_use_cache true c1)) |})
      in Ha.
    now rewrite Ha.
  - unfold replayed. cbn [cached_settings]. now rewrite Hc1.
  - reflexivity.
Qed.

Lemma cached_settings_rebuild_the_command_witness :
  configure ENCODE_SETTINGS Sample.movie Sample.probe 1
    (replayed Batch.after_first)
  = (Ok Batch.first_config, replayed Batch.after_first).
Proof.
  apply (cached_settings_rebuild_the_command ENCODE_SETTINGS Sample.movie
           Sample.probe Batch.first_world Batch.after_first
           Batch.first_config 1).
  - exists fresh_cache. split; reflexivity.
  - repeat constructor; (left; reflexivity) || (right; reflexivity).
  - reflexivity.
Defined.

(** X13. A subtitle answer that [int] reads but [isdigit] rejects (a signed
    or underscored number such as +0) burns its track in on the first file,
    yet the cache records no subtitle for it: with the cache in use the
    subtitle choice read back is empty and nothing is burned in. *)
Theorem signed_subtitle_answer_is_not_cached
    (subs : list Track) (w : World) (a : string) (rest : list string)
    (k : Z) (t : Track) (cfg : CmdConfig) (i : nat) :
  collecting w ->
  stdin w = a :: rest ->
  Py.isdigit (Py.strip a) = false ->
  select_subtitle subs (Py.strip a) = Some (k, t) ->
  fst (ask_subtitle 0 w) = Ok (Py.strip a)
  /\ snd (fst (apply_subtitle subs (Py.strip a) cfg)) = Some t
  /\ ask_subtitle i (replayed (snd (ask_subtitle 0 w)))
     = (Ok "", replayed (snd (ask_subtitle 0 w)))
  /\ apply_subtitle subs "" cfg = (cfg, None, false).
Proof.
  intros (c & Hc & Hu) Hin D S.
  assert (E : ask_subtitle 0 w
              = (Ok (Py.strip a),
                 {| stdin := rest;
                    cached_settings := Some (with_subtitle_track None c);
                    invoked := invoked w |})).
  { unfold ask_subtitle, bind.
    rewrite (active_cache_collecting w c Hc Hu). unfold read_input.
    rewrite Hin. unfold lift, int_if_digit. rewrite D.
    unfold store, ret. cbn [cached_settings]. now rewrite Hc. }
  rewrite E. cbn [fst snd]. split; [reflexivity|]. split.
  - now rewrite (apply_subtitle_selected _ _ _ _ _ S).
  - split; [|reflexivity].
    now rewrite (ask_subtitle_replay i _ (with_use_cache true
                                            (with_subtitle_track None c))).
Qed.

Lemma signed_subtitle_answer_is_not_cached_witness :
  fst (ask_subtitle 0 (Sample.world ["+0"])) = Ok "+0"
  /\ snd (fst (apply_subtitle Sample.subs "+0"
                 (initial_config ENCODE_SETTINGS Sample.movie)))
     = Some {| id := 0; title := "Subs"; language := "unknown" |}
  /\ ask_subtitle 1 (replayed (snd (ask_subtitle 0 (Sample.world ["+0"]))))
     = (Ok "", replayed (snd (ask_subtitle 0 (Sample.world ["+0"]))))
  /\ apply_subtitle Sample.subs ""
       (initial_config ENCODE_SETTINGS Sample.movie)
     = (initial_config ENCODE_SETTINGS Sample.movie, None, false).
Proof.
  apply (signed_subtitle_answer_is_not_cached Sample.subs
           (Sample.world ["+0"]) "+0" [] 0
           {| id := 0; title := "Subs"; language := "unknown" |}
           (initial_config ENCODE_SETTINGS Sample.movie) 1).
  - exists fresh_cache. split; reflexivity.
  - reflexivity.
  - reflexivity.
  - reflexivity.
Defined.

(** ** Only the first file writes the cache *)

Lemma keeps_bind {A B} (m : M A) (k : A -> M B) :
  keeps_cache m -> (forall a, keeps_cache (k a)) -> keeps_cache (bind m k).
Proof.
  unfold keeps_cache, bind. intros Hm Hk w. specialize (Hm w).
  destruct (m w) as [[a|e] w1]; cbn [snd] in *; [|exact Hm].
  now rewrite Hk.
Qed.

Lemma keeps_ret {A} (a : A) : keeps_cache (ret a).
Proof. now intros w. Qed.

Lemma keeps_raise {A} (e : exn) : keeps_cache (@raise A e).
Proof. now intros w. Qed.

Lemma keeps_lift {A} (r : result A) : keeps_cache (lift r).
Proof. now intros w. Qed.

Lemma keeps_read_input : keeps_cache read_input.
Proof. intros w. unfold read_input. now destruct (stdin w). Qed.

Lemma keeps_active_cache : keeps_cache active_cache.
Proof.
  intros w. unfold active_cache.
  destruct (cached_settings w) as [c|] eqn:E; [destruct (use_cache c)|];
    exact E.
Qed.

Lemma keeps_store_later (i : nat) (f : CachedSettings -> CachedSettings) :
  keeps_cache (store_first (S i) f).
Proof. apply keeps_ret. Qed.

Create HintDb keeps.

#[local] Hint Resolve keeps_ret keeps_raise keeps_lift keeps_read_input
  keeps_active_cache keeps_store_later : keeps.

Ltac keeps_steps :=
  repeat first
    [ solve [auto with keeps]
    | match goal with
      | |- keeps_cache (match ?x with _ => _ end) => destruct x
      | |- keeps_cache (if ?b then _ else _) => destruct b
      end
    | apply keeps_bind; [|intros ?] ].

Lemma keeps_ask_audio (i : nat) : keeps_cache (ask_audio (S i)).
Proof. unfold ask_audio. keeps_steps. Qed.

Lemma keeps_ask_subtitle (i : nat) : keeps_cache (ask_subtitle (S i)).
Proof. unfold ask_subtitle. keeps_steps. Qed.

Lemma keeps_ask_reencode (i : nat) : keeps_cache (ask_reencode (S i)).
Proof. unfold ask_reencode. keeps_steps. Qed.

Lemma keeps_ask_resolution (i : nat) : keeps_cache (ask_resolution (S i)).
Proof. unfold ask_resolution. keeps_steps. Qed.

Lemma keeps_get_encoding_preset (all : list Preset) (i : nat) :
  keeps_cache (get_encoding_preset all (S i)).
Proof.
  unfold get_encoding_preset. keeps_steps;
    intros w; now destruct (prompt_preset _ (stdin w)).
Qed.

#[local] Hint Resolve keeps_ask_audio keeps_ask_subtitle keeps_ask_reencode
  keeps_ask_resolution keeps_get_encoding_preset : keeps.

Lemma keeps_configure (s : Settings) (p : InputPath)
    (info : option (list Stream)) (i : nat) :
  keeps_cache (configure s p info (S i)).
Proof. unfold configure. cbv zeta. keeps_steps. Qed.

Lemma keeps_encode_video (s : Settings)
    (run_ffmpeg : list string -> proc_result) (p : InputPath)
    (info : option (list Stream)) (i : nat) (w : World) :
  cached_settings (snd (encode_video s run_ffmpeg p info (S i) w))
  = cached_settings w.
Proof.
  assert (K := keeps_configure s p info i w).
  destruct (configure s p info (S i) w) as [r w1] eqn:C. cbn [snd] in K.
  rewrite (run_after_configure _ run_ffmpeg _ _ _ _ _ _ C).
  now destruct r.
Qed.

(** X14. Only the call with [file_index] 0 writes [cached_settings]: every
    later call of [encode_video] leaves the cache exactly as it found it, and
    so does the whole loop of [main] from any index after the first.  In
    particular, when the first argument is skipped as invalid, nothing is
    ever cached. *)
Theorem later_files_never_write_the_cache
    (s : Settings) (run_ffmpeg : list string -> proc_result)
    (count i : nat) (args : list Arg) (w : World) :
  (forall p info,
     cached_settings (snd (encode_video s run_ffmpeg p info (S i) w))
     = cached_settings w)
  /\ cached_settings (snd (process_files s run_ffmpeg count (S i) args w))
     = cached_settings w.
Proof.
  split; [intros p info; apply keeps_encode_video|].
  revert i w; induction args as [|f args IH]; intros i w; [reflexivity|].
  cbn [process_files]. unfold bind.
  destruct (arg_valid f).
  - cbn [snd fst ret]. rewrite IH. apply keeps_encode_video.
  - cbn [ret]. apply IH.
Qed.

(** ** The result of [encode_video] *)

(** X15. [encode_video] returns [True] only when it ran ffmpeg, exactly
    once, and the process exited with code 0; the argument list it ran is
    [build_cmd] of an assembled configuration. *)
Theorem success_means_ffmpeg_exited_zero
    (s : Settings) (run_ffmpeg : list string -> proc_result) (p : InputPath)
    (info : option (list Stream)) (i : nat) (w : World) :
  fst (encode_video s run_ffmpeg p info i w) = true ->
  exists d a err,
    assemble s p (get_audio_tracks info) (get_subtitle_tracks info) d = Ok a
    /\ run_ffmpeg (build_cmd (config a)) = Exited 0 err
    /\ invoked (snd (encode_video s run_ffmpeg p info i w))
       = (invoked w ++ [build_cmd (config a)])%list.
Proof.
  assert (Q := quiet_configure s p info i w).
  destruct (configure s p info i w) as [r w1] eqn:C. cbn [snd] in Q.
  rewrite (run_after_configure _ run_ffmpeg _ _ _ _ _ _ C).
  destruct r as [cfg|e]; [|discriminate].
  destruct (configure_assemble _ _ _ _ _ _ _ C) as (d & a & Ha & <-).
  cbn [fst snd invoked].
  destruct (run_ffmpeg (build_cmd (config a))) as [|rc err] eqn:R;
    [discriminate|].
  intros H. apply Z.eqb_eq in H. subst rc.
  exists d, a, err. rewrite Q. auto.
Qed.

Lemma success_means_ffmpeg_exited_zero_witness :
  exists d a err,
    assemble ENCODE_SETTINGS Sample.movie (get_audio_tracks Sample.probe)
      (get_subtitle_tracks Sample.probe) d = Ok a
    /\ Sample.ffmpeg_ok (build_cmd (config a)) = Exited 0 err
    /\ invoked
         (snd (encode_video ENCODE_SETTINGS Sample.ffmpeg_ok Sample.movie
                 Sample.probe 0 (Sample.world [""; ""; ""; ""])))
       = ([] ++ [build_cmd (config a)])%list.
Proof.
  apply (success_means_ffmpeg_exited_zero ENCODE_SETTINGS Sample.ffmpeg_ok
           Sample.movie Sample.probe 0 (Sample.world [""; ""; ""; ""])).
  reflexivity.
Defined.

(** ** Input and output of the command *)

Lemma apply_scale_io (r : string) (cfg cfg' : CmdConfig) :
  apply_scale r cfg = Ok cfg' ->
  input cfg' = input cfg /\ output cfg' = output cfg.
Proof.
  unfold apply_scale. intros H.
  repeat match type of H with
         | (if ?b then _ else _) = _ => destruct b
         | match ?x with _ => _ end = _ => destruct x
         end; inversion H; auto.
Qed.

Lemma subtitle_stage_io (subs : list Track) (d : Decision) (cfg : CmdConfig) :
  input (fst (fst (subtitle_stage subs d cfg))) = input cfg
  /\ output (fst (fst (subtitle_stage subs d cfg))) = output cfg.
Proof.
  unfold subtitle_stage, apply_subtitle. destruct subs as [|x subs]; [auto|].
  destruct (select_subtitle _ _) as [[k tr]|]; [|auto].
  now destruct (current_filter cfg).
Qed.

Lemma video_stages_io (subs : list Track) (d : Decision) (cfg1 : CmdConfig)
    (a : Assembled) :
  video_stages subs d cfg1 = Ok a ->
  input (config a) = input cfg1 /\ output (config a) = output cfg1.
Proof.
  unfold video_stages. cbv zeta. intros H.
  destruct (subtitle_stage_io subs d cfg1) as [I O]. rewrite <- I, <- O.
  destruct (if snd (subtitle_stage subs d cfg1) then true else reencode d).
  - unfold apply_preset in H. destruct (preset d) as [pr|]; [|discriminate].
    cbn [and_then] in H.
    destruct (apply_scale _ _) as [cfg3|] eqn:S; [|discriminate].
    cbn [and_then] in H. injection H as <-. cbn [config apply_copy negb].
    now destruct (apply_scale_io _ _ _ S).
  - cbn [and_then] in H. injection H as <-. now cbn.
Qed.

(** X16. Whatever the answers, a command that gets built reads the given
    input and writes the file beside it named stem, suffix, extension: its
    argument list is ffmpeg -i input, then the graph option if a graph is
    set, the video arguments, the audio arguments, and the output path
    last. *)
Theorem command_reads_input_writes_beside
    (s : Settings) (p : InputPath) (au subs : list Track) (d : Decision)
    (a : Assembled) :
  assemble s p au subs d = Ok a ->
  build_cmd (config a)
  = (["ffmpeg"; "-i"; path_str p]
     ++ match current_filter (config a) with
        | Some f => ["-filter_complex"; f]
        | None => []
        end
     ++ video_settings (config a) ++ audio_settings (config a)
     ++ [beside p (output_suffix s ++ output_extension s)])%list.
Proof.
  unfold assemble. intros H.
  destruct (audio_stage _ _ _ _) as [cfg1|] eqn:A; [|discriminate].
  cbn [and_then] in H.
  destruct (audio_stage_frame _ _ _ _ _ A) as (I1 & O1 & _).
  destruct (video_stages_io _ _ _ _ H) as [I O].
  unfold build_cmd. now rewrite I, O, I1, O1.
Qed.

Lemma command_reads_input_writes_beside_witness :
  build_cmd
    (set_video ["-map"; "0:v"; "-c:v"; "copy"]
       (set_audio ["-an"] (initial_config ENCODE_SETTINGS Sample.movie)))
  = ["ffmpeg"; "-i"; "C:\v\a.mkv"; "-map"; "0:v"; "-c:v"; "copy"; "-an";
     "C:\v\a_done.mp4"].
Proof.
  apply (command_reads_input_writes_beside ENCODE_SETTINGS Sample.movie
           [] [] (Sample.decide "" "" "" false "")
           {| config :=
                set_video ["-map"; "0:v"; "-c:v"; "copy"]
                  (set_audio ["-an"]
                     (initial_config ENCODE_SETTINGS Sample.movie));
              reencoded := false;
              burned := None |}).
  reflexivity.
Defined.

(** ** The mapped video label exists in the graph *)

Lemma prefix_app_left (x a b : string) :
  String.prefix x a = true -> String.prefix x (a ++ b) = true.
Proof.
  revert a; induction x as [|e x IH]; intros a H.
  - now destruct (a ++ b).
  - destruct a as [|c a]; simpl in *; [discriminate|].
    destruct (ascii_dec e c); [now apply IH | discriminate].
Qed.

Lemma contains_app_left (x a b : string) :
  Py.contains x a = true -> Py.contains x (a ++ b) = true.
Proof.
  induction a as [|c a IH]; intros H; rewrite contains_unfold in H.
  - rewrite orb_false_r in H.
    rewrite contains_unfold, (prefix_app_left _ _ b H); reflexivity.
  - apply orb_true_iff in H as [H|H].
    + rewrite contains_unfold, (prefix_app_left _ _ b H); reflexivity.
    + simpl. rewrite (IH H); apply orb_true_r.
Qed.

Lemma contains_end (x a : string) : Py.contains x (a ++ x) = true.
Proof.
  rewrite <- (append_nil_r x) at 2. apply contains_mid.
Qed.

(** Replacing the occurrences of [old] by a text that contains [x] leaves a
    text that contains [x], if there was an occurrence. *)
Lemma replace_from_contains (old new x s : string) :
  Py.truthy old = true ->
  Py.contains x new = true ->
  Py.contains old s = true ->
  Py.contains x (Py.replace_from old new 0 s) = true.
Proof.
  intros Ho Hn. induction s as [|c s IH]; intros H.
  - now rewrite (contains_empty old Ho) in H.
  - cbn [Py.replace_from]. rewrite contains_unfold in H.
    destruct (String.prefix old (String c s)) eqn:P.
    + now apply contains_app_left.
    + cbn [orb] in H. rewrite contains_unfold, (IH H). apply orb_true_r.
Qed.

Lemma contains_vout_truthy (f : string) (cfg : CmdConfig) :
  filter_complex cfg = Some f -> Py.contains "[vout]" f = true ->
  current_filter cfg = Some f.
Proof.
  intros F C. apply current_filter_some; [exact F|].
  now apply (contains_truthy "[vout]").
Qed.

Lemma video_map_after_subtitle (subs : list Track) (d : Decision)
    (cfg : CmdConfig) :
  video_map_is_fed cfg ->
  video_map_is_fed (fst (fst (subtitle_stage subs d cfg))).
Proof.
  intros H. unfold subtitle_stage. destruct subs as [|x0 subs]; [exact H|].
  destruct (select_subtitle (x0 :: subs) (sub_choice d)) as [[k t]|] eqn:S.
  - rewrite (apply_subtitle_selected _ _ _ _ _ S). cbn [fst].
    exists "[vout]", (skipn 2 (video_settings cfg)). split; [reflexivity|].
    intros _. eexists. split; [reflexivity|].
    unfold subtitle_filter. do 4 apply contains_app_r. apply contains_end.
  - unfold apply_subtitle. now rewrite S.
Qed.

Lemma video_map_after_preset (pr : option Preset) (cfg cfg' : CmdConfig) :
  apply_preset pr cfg = Ok cfg' ->
  video_map_is_fed cfg -> video_map_is_fed cfg'.
Proof.
  destruct pr as [p0|]; [|discriminate]. rewrite apply_preset_some.
  intros H (x & rest & V & F). injection H as <-.
  cbn [video_settings set_video filter_complex]. rewrite V.
  eexists x, _. split; [reflexivity | exact F].
Qed.

Lemma video_map_after_scale (r : string) (cfg cfg' : CmdConfig) :
  apply_scale r cfg = Ok cfg' ->
  video_map_is_fed cfg -> video_map_is_fed cfg'.
Proof.
  intros H (x & rest & V & F).
  destruct (Py.isdigit r) eqn:D;
    [|rewrite (apply_scale_skip _ _ D) in H; injection H as <-;
      now exists x, rest].
  destruct (Py.int r) as [h|] eqn:I.
  - destruct (current_filter cfg) as [f|] eqn:C.
    + rewrite (apply_scale_on_graph _ h f cfg D I C) in H. injection H as <-.
      destruct (Py.contains "[aout]" f).
      * exists "[vout]", (skipn 2 (video_settings cfg)).
        split; [reflexivity|]. intros _.
        exists (f ++ (";[0:v]scale=-1:" ++ Py.str h) ++ "[vout]").
        split; [reflexivity|]. apply contains_app_r, contains_end.
      * exists x, rest. split; [exact V|]. intros E.
        destruct (F E) as (f0 & F0 & C0).
        rewrite (contains_vout_truthy f0 cfg F0 C0) in C. injection C as <-.
        eexists. split; [reflexivity|].
        apply replace_from_contains; [reflexivity| |exact C0].
        exact (contains_end "[vout]" ("[vtmp];[vtmp]scale=-1:" ++ Py.str h)).
    + unfold apply_scale in H. rewrite D, I, C in H.
      assert (T : Py.truthy r = true).
      { unfold Py.isdigit in D. now apply andb_true_iff in D. }
      rewrite T in H. cbn [andb] in H. injection H as <-.
      exists "[vout]", (skipn 2 (video_settings cfg)).
      split; [reflexivity|]. intros _.
      exists (("[0:v]scale=-1:" ++ Py.str h) ++ "[vout]").
      split; [reflexivity|]. apply contains_end.
  - unfold apply_scale in H. rewrite D, I in H.
    assert (T : Py.truthy r = true).
    { unfold Py.isdigit in D. now apply andb_true_iff in D. }
    rewrite T in H. discriminate.
Qed.

(** X17. In every command that gets built, the video arguments start with
    -map and a stream specifier, and that specifier is the label [vout] only
    when the graph is set and contains [vout]: the command never maps a
    video label that no fragment writes. *)
Theorem video_label_is_written
    (s : Settings) (p : InputPath) (au subs : list Track) (d : Decision)
    (a : Assembled) :
  assemble s p au subs d = Ok a -> video_map_is_fed (config a).
Proof.
  unfold assemble. intros H.
  destruct (audio_stage _ _ _ _) as [cfg1|] eqn:A; [|discriminate].
  cbn [and_then] in H.
  destruct (audio_stage_frame _ _ _ _ _ A) as (_ & _ & V1).
  assert (I1 : video_map_is_fed cfg1).
  { exists "0:v", []. split; [exact V1 | discriminate]. }
  assert (I2 := video_map_after_subtitle subs d cfg1 I1).
  unfold video_stages in H. cbv zeta in H.
  destruct (if snd (subtitle_stage subs d cfg1) then true else reencode d).
  - destruct (apply_preset _ _) as [cfg|] eqn:P; [|discriminate].
    cbn [and_then] in H.
    destruct (apply_scale _ _) as [cfg3|] eqn:S; [|discriminate].
    cbn [and_then] in H. injection H as <-. cbn [config apply_copy negb].
    apply (video_map_after_scale _ _ _ S).
    apply (video_map_after_preset _ _ _ P). exact I2.
  - cbn [and_then] in H. injection H as <-. cbn [config apply_copy negb].
    exists "0:v", ["-c:v"; "copy"]. split; [reflexivity | discriminate].
Qed.

Lemma video_label_is_written_witness :
  video_map_is_fed Batch.first_config.
Proof.
  apply (video_label_is_written ENCODE_SETTINGS Sample.movie Sample.audio
           Sample.subs (Sample.decide "1" "-" "" true "0720")
           {| config := Batch.first_config; reencoded := true;
              burned := None |}).
  reflexivity.
Defined.

(** ** The preset question *)

(** X18. When the preset question returns a preset, it has read some
    answers, passed over all but the last of them, and the last one (with
    the empty answer standing for 0) reads as an index within the preset
    list; the preset returned is the one at that index. *)
Theorem preset_question_stays_in_bounds
    (all : list Preset) (answers rest : list string) (p : Preset) :
  prompt_preset all answers = (Ok p, rest) ->
  exists skipped a n,
    answers = (skipped ++ a :: rest)%list
    /\ Py.int (Py.or_default (Py.strip a) "0") = Some n
    /\ (0 <= n < Z.of_nat (List.length all))%Z
    /\ nth_error all (Z.to_nat n) = Some p.
Proof.
  induction answers as [|a answers IH]; [discriminate|].
  cbn [prompt_preset].
  assert (Skip : prompt_preset all answers = (Ok p, rest) ->
                 exists skipped a0 n,
                   a :: answers = (skipped ++ a0 :: rest)%list
                   /\ Py.int (Py.or_default (Py.strip a0) "0") = Some n
                   /\ (0 <= n < Z.of_nat (List.length all))%Z
                   /\ nth_error all (Z.to_nat n) = Some p).
  { intros H. destruct (IH H) as (sk & a0 & n & -> & R).
    exists (a :: sk), a0, n. split; [reflexivity | exact R]. }
  destruct (Py.isdigit _); [|exact Skip].
  destruct (Py.int _) as [n|] eqn:I; [|discriminate].
  destruct ((0 <=? n)%Z && (n <? Z.of_nat (List.length all))%Z) eqn:B;
    [|exact Skip].
  destruct (nth_error all (Z.to_nat n)) as [q|] eqn:N; [|exact Skip].
  intros H. injection H as <- <-.
  apply andb_true_iff in B as [B1 B2].
  apply Z.leb_le in B1. apply Z.ltb_lt in B2.
  exists [], a, n. repeat split; auto.
Qed.

Lemma preset_question_stays_in_bounds_witness :
  exists skipped a n,
    ["x"; "7"; "1"; "later"] = (skipped ++ a :: ["later"])%list
    /\ Py.int (Py.or_default (Py.strip a) "0") = Some n
    /\ (0 <= n < Z.of_nat (List.length [DEFAULT_PRESET; Batch.extra_preset]))%Z
    /\ nth_error [DEFAULT_PRESET; Batch.extra_preset] (Z.to_nat n)
       = Some Batch.extra_preset.
Proof.
  apply (preset_question_stays_in_bounds
           [DEFAULT_PRESET; Batch.extra_preset] ["x"; "7"; "1"; "later"]
           ["later"] Batch.extra_preset).
  reflexivity.
Defined.

(** ** Arguments that fail the checks *)



(** ** An audio choice other than 1 or 2, after the first file *)





(** The same run, evaluated: the answer 3 on the second file, no subtitle,
    no re-encoding.  The command copies the video and says nothing about
    audio. *)
Example later_file_other_choice_run :
  encode_video ENCODE_SETTINGS Sample.ffmpeg_ok Sample.movie Sample.probe 1
    (Sample.world ["3"; ""; "n"])
  = (true,
     {| stdin := []; cached_settings := Some fresh_cache;
        invoked := [["ffmpeg"; "-i"; "C:\v\a.mkv"; "-map"; "0:v"; "-c:v";
                     "copy"; "C:\v\a_done.mp4"]] |}).
Proof. vm_compute. reflexivity. Qed.

(** X21. With the cache in use on a file with audio tracks, a cached audio
    choice that is neither 1 nor 2 (the [None] left by a first file without
    audio tracks, or a first-file answer such as 3 stored before the file
    aborted) gives no audio argument: the call is the run of the command
    assembled from the cached values, and every such command has an empty
    list of audio arguments. *)
Theorem cached_other_choice_runs_without_audio
    (s : Settings) (run_ffmpeg : list string -> proc_result) (p : InputPath)
    (info : option (list Stream)) (i : nat) (w : World) (c : CachedSettings) :
  cached_settings w = Some c ->
  use_cache c = true ->
  get_audio_tracks info <> [] ->
  pyval_eqb (audio_choice c) "1" = false ->
  pyval_eqb (audio_choice c) "2" = false ->
  encode_video s run_ffmpeg p info i w
  = match assemble s p (get_audio_tracks info) (get_subtitle_tracks info)
            (cached_decision c) with
    | Ok a =>
        (match run_ffmpeg (build_cmd (config a)) with
         | NotFound => false
         | Exited returncode _ => (returncode =? 0)%Z
         end,
         {| stdin := stdin w; cached_settings := cached_settings w;
            invoked := (invoked w ++ [build_cmd (config a)])%list |})
    | Raise _ => (false, w)
    end
  /\ forall a,
       assemble s p (get_audio_tracks info) (get_subtitle_tracks info)
         (cached_decision c) = Ok a ->
       audio_settings (config a) = []
       /\ build_cmd (config a)
          = (["ffmpeg"; "-i"; path_str p]
             ++ match current_filter (config a) with
                | Some f => ["-filter_complex"; f]
                | None => []
                end
             ++ video_settings (config a)
             ++ [beside p (output_suffix s ++ output_extension s)])%list.
Proof.
  intros Hc Hu Hau N1 N2. split; [apply (cached_run _ _ _ _ _ _ _ Hc Hu)|].
  intros a H.
  destruct (other_choice_assembles_without_audio s p (get_audio_tracks info)
              (get_subtitle_tracks info) (cached_decision c) Hau N1 N2)
    as (A & _ & F).
  assert (E := F a H). split; [exact E|].
  unfold assemble in H. rewrite A in H. cbn [and_then] in H.
  destruct (video_stages_io _ _ _ _ H) as [I O].
  unfold build_cmd. now rewrite E, I, O.
Qed.

Lemma cached_other_choice_runs_without_audio_witness :
  encode_video ENCODE_SETTINGS Sample.ffmpeg_ok Sample.movie Sample.probe 2
    {| stdin := ["unread"];
       cached_settings := Some (with_use_cache true fresh_cache);
       invoked := [] |}
  = (true,
     {| stdin := ["unread"];
        cached_settings := Some (with_use_cache true fresh_cache);
        invoked := [["ffmpeg"; "-i"; "C:\v\a.mkv"; "-map"; "0:v"; "-c:v";
                     "copy"; "C:\v\a_done.mp4"]] |}).
Proof.
  apply (cached_other_choice_runs_without_audio ENCODE_SETTINGS
           Sample.ffmpeg_ok Sample.movie Sample.probe 2
           {| stdin := ["unread"];
              cached_settings := Some (with_use_cache true fresh_cache);
              invoked := [] |}
           (with_use_cache true fresh_cache)).
  - reflexivity.
  - reflexivity.
  - discriminate.
  - reflexivity.
  - reflexivity.
Defined.

(** ** At most one process per file *)

